(** * pathwiz: file_management

    A shallow embedding of the permission codec and auditor
    (src/file_management/permissions.py) and of the directory tree renderer
    (src/file_management/structure.py), with the properties of the
    specification stated over it.

    Python integers are unbounded, so permission values are [Z]; the shift
    and mask operators [>>] and [&] are [Z.shiftr] and [Z.land].  Python
    strings are [string]; comparison of strings is by code point, which on
    UTF-8 encoded bytes is the byte-wise lexicographic order [String.leb]. *)

From Stdlib Require Import ZArith List Bool Ascii String Lia Permutation.
From Stdlib Require OrderedTypeEx.
Import ListNotations.

Set Warnings "-register-all".

Local Open Scope string_scope.
Local Open Scope Z_scope.

(** ** Permission codec *)

Module PermissionsManager.

(** [octal_digit_to_rwx]: a Python integer is truthy when it is not zero. *)
Definition octal_digit_to_rwx (octal_digit : Z) : string :=
  let r := if Z.land octal_digit 4 =? 0 then "-" else "r" in
  let w := if Z.land octal_digit 2 =? 0 then "-" else "w" in
  let x := if Z.land octal_digit 1 =? 0 then "-" else "x" in
  r ++ w ++ x.

(** [permissions_to_rwx]: the loop [for shift in (6, 3, 0)] appends one
    triad per iteration to [result], starting from the empty string. *)
Definition permissions_to_rwx (octal_permissions : Z) : string :=
  fold_left
    (fun result shift =>
       let digit := Z.land (Z.shiftr octal_permissions shift) 7 in
       result ++ octal_digit_to_rwx digit)
    [6; 3; 0] "".

(** Modelled from the spec: the digit of one triad, the inverse of
    [digit_to_symbol]; permissions.py has no inverse direction.  The triad
    contributes bit 2 for [r], bit 1 for [w] and bit 0 for [x]. *)
Definition symbol_to_digit (r w x : ascii) : Z :=
  (if Ascii.eqb r "r" then 4 else 0)
  + (if Ascii.eqb w "w" then 2 else 0)
  + (if Ascii.eqb x "x" then 1 else 0).

(** Modelled from the spec: the triads of a symbolic string read from the
    left, each one an octal digit below the ones read before. *)
Fixpoint symbol_to_value_from (acc : Z) (symbol : string) : Z :=
  match symbol with
  | String r (String w (String x rest)) =>
      symbol_to_value_from (acc * 8 + symbol_to_digit r w x) rest
  | _ => acc
  end.

(** Modelled from the spec: [symbol_to_value], the inverse direction of the
    codec, which the specification names in its round-trip property and
    describes as converting a symbolic rwx triad string back to a 9-bit
    value; permissions.py has no such function.  The owner, group and other
    triads occupy bits 6-8, 3-5 and 0-2. *)
Definition symbol_to_value (symbol : string) : Z :=
  symbol_to_value_from 0 symbol.

(** The octal digit that [permissions_to_rwx] extracts at [shift]. *)
Definition triad (v shift : Z) : Z := Z.land (Z.shiftr v shift) 7.

(** The alphabet of the symbolic notation. *)
Definition rwx_char (c : ascii) : bool :=
  Ascii.eqb c "r" || Ascii.eqb c "w" || Ascii.eqb c "x" || Ascii.eqb c "-".

End PermissionsManager.

(** ** The filesystem as the code sees it

    A directory entry has a name, the [st_mode] that [os.stat] reports for
    it, and, for a directory, its listing in the order in which the
    operating system returns it ([os.listdir], [Path.iterdir]). *)

Inductive node : Type :=
| File (name : string) (st_mode : Z)
| Dir (name : string) (st_mode : Z) (children : list node).

Definition name (item : node) : string :=
  match item with File n _ | Dir n _ _ => n end.

Definition st_mode (item : node) : Z :=
  match item with File _ m | Dir _ m _ => m end.

Definition is_dir (item : node) : bool :=
  match item with Dir _ _ _ => true | File _ _ => false end.

Definition is_file (item : node) : bool :=
  match item with File _ _ => true | Dir _ _ _ => false end.

(** [(item / child).exists()] *)
Definition child_exists (item : node) (child : string) : bool :=
  match item with
  | File _ _ => false
  | Dir _ _ children => existsb (fun c => name c =? child)%string children
  end.

(** A path is the list of its components below the manager's root. *)
Definition path := list string.

(** Exceptions of the modelled code, with the cause each message embeds. *)
Inductive syscall : Type :=
| Stat (p : path) (follow_symlinks : bool)
| Chmod (p : path) (mode : Z)
| Listdir (p : path).

Inductive exn : Type :=
| NotADirectoryError
| OSError (call : syscall)
| PermissionError (p : path) (cause : exn)
| OverflowError.

Inductive outcome (A : Type) : Type :=
| Returned (a : A)
| Raised (e : exn).
Arguments Returned {A} a.
Arguments Raised {A} e.

Definition bind {A B : Type} (m : outcome A) (k : A -> outcome B) : outcome B :=
  match m with Returned a => k a | Raised e => Raised e end.

Notation "x <- m ;; k" := (bind m (fun x => k))
  (at level 61, m at next level, right associativity).

(** ** Python built-ins used by the renderer *)

(** [x in xs] for a list of strings. *)
Definition str_in (x : string) (xs : list string) : bool :=
  existsb (String.eqb x) xs.

(** [str.rfind(c)], with [None] for Python's [-1]. *)
Fixpoint rfind (c : ascii) (s : string) : option nat :=
  match s with
  | EmptyString => None
  | String a s' =>
      match rfind c s' with
      | Some i => Some (S i)
      | None => if Ascii.eqb a c then Some O else None
      end
  end.

(** [PurePath.suffix] and [PurePath.stem] of a final path component: the
    part from the last dot on, when that dot is neither the first nor the
    last character, and the part before it. *)
Definition suffix (nm : string) : string :=
  match rfind "." nm with
  | Some i =>
      if (0 <? i)%nat && (i <? String.length nm - 1)%nat
      then substring i (String.length nm - i) nm
      else ""
  | None => ""
  end.

Definition stem (nm : string) : string :=
  match rfind "." nm with
  | Some i =>
      if (0 <? i)%nat && (i <? String.length nm - 1)%nat
      then substring 0 i nm
      else nm
  | None => nm
  end.

(** [sorted(xs, key=...)]: a stable sort, here by insertion, for the order
    [le] that the key induces. *)
Fixpoint insert_sorted {A : Type} (le : A -> A -> bool) (x : A) (l : list A)
  : list A :=
  match l with
  | [] => [x]
  | y :: l' => if le x y then x :: l else y :: insert_sorted le x l'
  end.

Definition sorted {A : Type} (le : A -> A -> bool) (l : list A) : list A :=
  fold_right (insert_sorted le) [] l.

(** [enumerate(xs)] *)
Fixpoint enumerate_from {A : Type} (i : nat) (l : list A) : list (nat * A) :=
  match l with
  | [] => []
  | x :: l' => (i, x) :: enumerate_from (S i) l'
  end.

Definition enumerate {A : Type} (l : list A) : list (nat * A) :=
  enumerate_from 0 l.

(** ["\n".join(lines)] *)
Definition newline : string := String (ascii_of_nat 10) "".

Definition join_lines (lines : list string) : string :=
  String.concat newline lines.

(** A Python [dict] with string keys keeps insertion order: assigning to a
    present key replaces its value in place, assigning to an absent key
    appends.  Values of the mapping output are dotted paths or nested
    mappings. *)
Inductive value : Type :=
| Leaf (module_path : string)
| Sub (d : list (string * value)).

Definition dict : Type := list (string * value).

Fixpoint dict_get (d : dict) (k : string) : option value :=
  match d with
  | [] => None
  | (k', v) :: d' => if (k' =? k)%string then Some v else dict_get d' k
  end.

Fixpoint dict_set (d : dict) (k : string) (v : value) : dict :=
  match d with
  | [] => [(k, v)]
  | (k', v') :: d' =>
      if (k' =? k)%string then (k, v) :: d' else (k', v') :: dict_set d' k v
  end.

(** ** Directory tree renderer (structure.py) *)

Definition corner : string := "└── ".
Definition tee : string := "├── ".
Definition pipe : string := "│   ".
Definition blank : string := "    ".

Definition default_excluded : list string := [".venv"; "__pycache__"; "tests"].

Section Renderer.

(** The variables the two nested functions close over. *)
Variable excluded_directories : list string.
Variable exclude_hidden : bool.

(** The condition under which the text pass drops an entry from [items]. *)
Definition markdown_skips (item : node) : bool :=
  is_dir item
  && (str_in (name item) excluded_directories
      || (exclude_hidden && String.prefix "." (name item))).

(** The condition under which the mapping pass executes [continue]. *)
Definition dict_skips (item : node) : bool :=
  str_in (name item) excluded_directories
  || (exclude_hidden && String.prefix "." (name item)).

(** [key=lambda x: (x.is_file(), x.name)]: tuples compare component-wise,
    [False] before [True]. *)
Definition markdown_key_le (x y : node) : bool :=
  match is_file x, is_file y with
  | false, true => true
  | true, false => false
  | _, _ => (name x <=? name y)%string
  end.

(** [sorted(path.iterdir())]: paths of one directory compare by name. *)
Definition path_le (x y : node) : bool := (name x <=? name y)%string.

(** The body of the loop [for i, item in enumerate(items)], shared in shape
    by the top level and by [_generate_markdown_tree]; [walk] is the
    recursive call for [item]. *)
Definition markdown_item (next_prefix : string) (len_items : nat)
    (entry : nat * (node * (string -> bool -> list string))) : list string :=
  let '(i, (item, walk)) := entry in
  let is_last_item := (i =? len_items - 1)%nat in
  if is_dir item then walk next_prefix is_last_item
  else if (suffix (name item) =? ".py")%string then
    let item_connector := if is_last_item then corner else tee in
    [next_prefix ++ item_connector ++ name item]
  else [].

(** [_generate_markdown_tree(path, prefix, is_last)], returning the lines it
    appends to [markdown_lines].  The recursive call for an item is paired
    with the item before sorting, so that the recursion is on the listing of
    [path].  The function is only called on directories: both loops test
    [item.is_dir()] first. *)
Fixpoint _generate_markdown_tree (path_ : node) (prefix : string)
    (is_last : bool) {struct path_} : list string :=
  let connector := if is_last then corner else tee in
  let current_prefix := prefix ++ connector in
  let next_prefix := prefix ++ (if is_last then blank else pipe) in
  let line := current_prefix ++ name path_ ++ "/" in
  match path_ with
  | File _ _ => [line]
  | Dir _ _ children =>
      let items :=
        filter (fun entry => negb (markdown_skips (fst entry)))
          (sorted (fun x y => markdown_key_le (fst x) (fst y))
             (map (fun c => (c, _generate_markdown_tree c)) children)) in
      line :: flat_map (markdown_item next_prefix (List.length items))
                (enumerate items)
  end.

(** The lines of the text rendering, for the listing [children] of the
    project root named [root_name]. *)
Definition markdown_lines (root_name : string) (children : list node)
  : list string :=
  let items :=
    filter (fun entry => negb (markdown_skips (fst entry)))
      (sorted (fun x y => markdown_key_le (fst x) (fst y))
         (map (fun c => (c, _generate_markdown_tree c)) children)) in
  ["# Project Structure: " ++ root_name; "```"; root_name ++ "/"]
  ++ flat_map (markdown_item "" (List.length items)) (enumerate items)
  ++ ["```"].

(** The body of the loop of [_build_dict_structure] for one [item]; [build]
    is the recursive call for [item]. *)
Definition dict_item (module_prefix : string) (current_dict : dict)
    (entry : node * (dict -> string -> dict)) : dict :=
  let '(item, build) := entry in
  if dict_skips item then current_dict
  else if is_dir item then
    if child_exists item "__init__.py" then
      let package_name := name item in
      let package_path :=
        if (module_prefix =? "")%string then package_name ++ "."
        else module_prefix ++ package_name ++ "." in
      dict_set current_dict package_name (Sub (build [] package_path))
    else build current_dict (module_prefix ++ name item ++ ".")
  else if (suffix (name item) =? ".py")%string then
    let module_name := stem (name item) in
    let module_path := module_prefix ++ module_name in
    dict_set current_dict module_name (Leaf module_path)
  else current_dict.

(** [_build_dict_structure(path, current_dict, module_prefix)], returning
    [current_dict] as the call leaves it.  The nested mapping of a package is
    reachable only through the key just assigned, so building it and storing
    it are one step here. *)
Fixpoint _build_dict_structure (path_ : node) (current_dict : dict)
    (module_prefix : string) {struct path_} : dict :=
  match path_ with
  | File _ _ => current_dict
  | Dir _ _ children =>
      fold_left (dict_item module_prefix)
        (sorted (fun x y => path_le (fst x) (fst y))
           (map (fun c => (c, _build_dict_structure c)) children))
        current_dict
  end.

End Renderer.

(** [if excluded_directories is None: excluded_directories = [...]] *)
Definition excluded_or_default (excluded_directories : option (list string))
  : list string :=
  match excluded_directories with
  | None => default_excluded
  | Some l => l
  end.

(** [generate_directory_tree].  [Path.iterdir] raises on a path that is not
    a directory; [dict_output] starts as the empty dict and is what the
    function returns as second component in every mode. *)
Definition generate_directory_tree (directory : node)
    (excluded_directories : option (list string)) (exclude_hidden : bool)
    (output_format : string) (formatter : option (string -> string))
  : outcome (option string * option dict) :=
  let excluded_directories := excluded_or_default excluded_directories in
  let project_root := directory in
  markdown_output <-
    (if str_in output_format ["markdown"; "both"] then
       match project_root with
       | File _ _ => Raised NotADirectoryError
       | Dir _ _ children =>
           let result_str :=
             join_lines (markdown_lines excluded_directories exclude_hidden
                           (name project_root) children) in
           Returned (Some (match formatter with
                           | Some f => f result_str
                           | None => result_str
                           end))
       end
     else Returned None) ;;
  dict_output <-
    (if str_in output_format ["dict"; "both"] then
       match project_root with
       | File _ _ => Raised NotADirectoryError
       | Dir _ _ _ =>
           if child_exists project_root "__init__.py" then
             let package_name := name project_root in
             Returned
               (dict_set [] package_name
                  (Sub (_build_dict_structure excluded_directories
                          exclude_hidden project_root []
                          (package_name ++ "."))))
           else
             Returned (_build_dict_structure excluded_directories
                         exclude_hidden project_root [] "")
       end
     else Returned []) ;;
  Returned (markdown_output, Some dict_output).

(** ** Permission auditor (permissions.py, [check_permissions]) *)

Local Open Scope list_scope.

(** [0o777] and [0o7777] *)
Definition perm_mask : Z := 511.
Definition chmod_mask : Z := 4095.

(** What [os.chmod] does to [st_mode]: the permission bits are replaced,
    the file type bits above them stay. *)
Definition chmod_mode (st_mode mode : Z) : Z :=
  Z.lor (Z.land st_mode (Z.lnot chmod_mask)) (Z.land mode chmod_mask).

(** Resolution of a path below a node, and replacement of the node found
    there.  Names within one directory are distinct; the first match is
    taken. *)
Fixpoint find_child (child : string) (children : list node) : option node :=
  match children with
  | [] => None
  | c :: rest => if (name c =? child)%string then Some c else find_child child rest
  end.

Fixpoint replace_child (child : string) (new : node) (children : list node)
  : list node :=
  match children with
  | [] => []
  | c :: rest =>
      if (name c =? child)%string then new :: rest
      else c :: replace_child child new rest
  end.

Fixpoint lookup (p : path) (fs : node) : option node :=
  match p with
  | [] => Some fs
  | child :: p' =>
      match fs with
      | File _ _ => None
      | Dir _ _ children =>
          match find_child child children with
          | Some c => lookup p' c
          | None => None
          end
      end
  end.

Fixpoint subst (p : path) (new : node) (fs : node) : node :=
  match p with
  | [] => new
  | child :: p' =>
      match fs with
      | File _ _ => fs
      | Dir n m children =>
          match find_child child children with
          | Some c => Dir n m (replace_child child (subst p' new c) children)
          | None => fs
          end
      end
  end.

(** The result of running a piece of the auditor: whether it returned or
    raised, the node it ran on as it leaves it, and the system calls it made
    in order. *)
Definition run : Type := outcome unit * node * list syscall.

(** Python's integers are unbounded, while [os.chmod] and [os.mkdir] take
    their mode as a C [int]: a mode outside it raises [OverflowError] when
    the argument is converted, before the system call is made. *)
Definition c_int (x : Z) : bool :=
  (-2147483648 <=? x) && (x <=? 2147483647).

(** [except OSError as e: raise PermissionError(...)]: every exception of
    the auditor but [OverflowError] is an [OSError] ([PermissionError] and
    [NotADirectoryError] are subclasses) and is raised again as a
    [PermissionError] naming [path_]; an [OverflowError] passes through. *)
Definition is_os_error (e : exn) : bool :=
  match e with
  | OverflowError => false
  | _ => true
  end.

Definition reraise (path_ : path) (e : exn) : exn :=
  if is_os_error e then PermissionError path_ e else e.

Section Auditor.

(** Which system calls the operating system refuses ([OSError]); left
    open, so that every property holds whatever fails. *)
Variable os_fails : syscall -> bool.

(** The tree shows what each path leads to, symbolic links followed, as
    [Path.exists], [os.path.isdir], [os.listdir] and [os.chmod] see it.
    [link_mode p] is [Some own] when [p] itself is a symbolic link, [own]
    being the [st_mode] of the link, which [os.stat] reports when it is
    told not to follow links. *)
Variable link_mode : path -> option Z.

(** The paths at which the [stat] inside [os.path.isdir] is refused:
    [os.path.isdir] swallows the [OSError] and answers [False]. *)
Variable isdir_refused : path -> bool.

Variable request_permissions : Z.
Variable resolve : bool.

(** [os.stat(path, follow_symlinks=resolve).st_mode], where [mode] is the
    [st_mode] of what [path_] leads to. *)
Definition stat_mode (path_ : path) (mode : Z) : Z :=
  if resolve then mode
  else match link_mode path_ with
       | Some own => own
       | None => mode
       end.

(** [check_and_correct(path)], on the [st_mode] of the node at [path]. *)
Definition check_and_correct (path_ : path) (mode : Z)
  : outcome unit * Z * list syscall :=
  if os_fails (Stat path_ resolve) then
    (Raised (PermissionError path_ (OSError (Stat path_ resolve))), mode,
     [Stat path_ resolve])
  else
    let current_permissions := Z.land (stat_mode path_ mode) perm_mask in
    if current_permissions =? request_permissions then
      (Returned tt, mode, [Stat path_ resolve])
    else if negb (c_int request_permissions) then
      (Raised OverflowError, mode,
       [Stat path_ resolve; Chmod path_ request_permissions])
    else if os_fails (Chmod path_ request_permissions) then
      (Raised (PermissionError path_ (OSError (Chmod path_ request_permissions))),
       mode, [Stat path_ resolve; Chmod path_ request_permissions])
    else
      (Returned tt, chmod_mode mode request_permissions,
       [Stat path_ resolve; Chmod path_ request_permissions]).

(** [os.path.isdir(os.path.join(path, child))] *)
Definition isdir (path_ : path) (child : node) : bool :=
  is_dir child && negb (isdir_refused (path_ ++ [name child])).

(** The loop [for child_dir in child_dirs: await traverse(child_dir)] over
    the listing of [path]: [child_dirs] keeps the entries for which
    [os.path.isdir] holds, and the loop stops at the first exception.
    [walk] is the recursive call. *)
Definition traverse_child_dirs (walk : path -> node -> run) (path_ : path)
  : list node -> outcome unit * list node * list syscall :=
  fix loop (listing : list node) :=
    match listing with
    | [] => (Returned tt, [], [])
    | child :: rest =>
        if isdir path_ child then
          let '(r, child', calls) := walk (path_ ++ [name child]) child in
          match r with
          | Raised e => (Raised e, child' :: rest, calls)
          | Returned _ =>
              let '(r', rest', calls') := loop rest in
              (r', child' :: rest', calls ++ calls')
          end
        else
          let '(r', rest', calls') := loop rest in
          (r', child :: rest', calls')
    end.

(** [traverse(path)] on the node at [path].  Every [OSError] that reaches
    the [except] clause, a [PermissionError] included, is raised again as a
    [PermissionError] naming [path].  [os.listdir] on a plain file raises
    [NotADirectoryError]. *)
Fixpoint traverse (path_ : path) (target : node) {struct target} : run :=
  let '(r, mode', calls) := check_and_correct path_ (st_mode target) in
  match r with
  | Raised e =>
      (Raised (reraise path_ e),
       match target with
       | File n _ => File n mode'
       | Dir n _ children => Dir n mode' children
       end, calls)
  | Returned _ =>
      if os_fails (Listdir path_) then
        (Raised (PermissionError path_ (OSError (Listdir path_))),
         match target with
         | File n _ => File n mode'
         | Dir n _ children => Dir n mode' children
         end, calls ++ [Listdir path_])
      else
        match target with
        | File n _ =>
            (Raised (PermissionError path_ NotADirectoryError),
             File n mode', calls ++ [Listdir path_])
        | Dir n _ children =>
            let '(r', children', calls') :=
              traverse_child_dirs traverse path_ children in
            (match r' with
             | Raised e => Raised (reraise path_ e)
             | Returned _ => Returned tt
             end,
             Dir n mode' children', calls ++ [Listdir path_] ++ calls')
        end
  end.

(** [check_permissions(directory_path, request_permissions, resolve)] on the
    tree [fs] below the manager's root. *)
Definition check_permissions (fs : node) (directory_path : path) : run :=
  let full_path := directory_path in
  match lookup full_path fs with
  | None => (Returned tt, fs, [])
  | Some target =>
      let '(r, target', calls) := traverse full_path target in
      (r, subst full_path target' fs, calls)
  end.

End Auditor.

(** Observations on a run and on a tree. *)
Definition run_node (r : run) : node := snd (fst r).
Definition run_calls (r : run) : list syscall := snd r.

Definition is_chmod (call : syscall) : bool :=
  match call with Chmod _ _ => true | _ => false end.

(** The paths of the directories strictly below [target], which is at [p]. *)
Fixpoint dirs_below (p : path) (target : node) {struct target} : list path :=
  match target with
  | File _ _ => []
  | Dir _ _ children =>
      flat_map (fun c =>
                  if is_dir c
                  then (p ++ [name c]) :: dirs_below (p ++ [name c]) c
                  else [])
        children
  end.

(** The plain files strictly below [target], with their [st_mode]. *)
Fixpoint files_below (p : path) (target : node) {struct target}
  : list (path * Z) :=
  match target with
  | File _ _ => []
  | Dir _ _ children =>
      flat_map (fun c =>
                  if is_dir c
                  then files_below (p ++ [name c]) c
                  else [(p ++ [name c], st_mode c)])
        children
  end.

(** The node and every directory below it carry the permission bits
    [perms]. *)
Fixpoint dirs_carry (perms : Z) (target : node) {struct target} : bool :=
  (Z.land (st_mode target) perm_mask =? perms)
  && match target with
     | File _ _ => true
     | Dir _ _ children =>
         forallb (fun c => if is_dir c then dirs_carry perms c else true)
           children
     end.

(** The node at [p] and every directory below it carry the permission
    bits [perms] in the mode that [os.stat(path, follow_symlinks=resolve)]
    reports for them. *)
Fixpoint stat_carry (link_mode : path -> option Z) (resolve : bool)
    (perms : Z) (p : path) (target : node) {struct target} : bool :=
  (Z.land (stat_mode link_mode resolve p (st_mode target)) perm_mask =? perms)
  && match target with
     | File _ _ => true
     | Dir _ _ children =>
         forallb (fun c => if is_dir c
                           then stat_carry link_mode resolve perms
                                  (p ++ [name c]) c
                           else true)
           children
     end.

(** What the audit of a node at [p] leaves alone and what it may touch:
    the plain files below the node keep their [st_mode], and every [chmod]
    is on the node or on a directory below it. *)
Definition audit_frame (os_fails : syscall -> bool)
    (link_mode : path -> option Z) (isdir_refused : path -> bool)
    (request_permissions : Z) (resolve : bool) (target : node) : Prop :=
  forall p,
    let audit :=
      traverse os_fails link_mode isdir_refused request_permissions resolve p
        target in
    files_below p (run_node audit) = files_below p target
    /\ forall call, In call (run_calls audit) -> is_chmod call = true ->
                    exists q, call = Chmod q request_permissions
                              /\ (q = p \/ In q (dirs_below p target)).

(** The keys that one iteration of the loop of [_build_dict_structure]
    assigns in the current mapping, by the item of the iteration: the stem
    of a source file, the name of a package, for a directory without the
    marker file the keys that its own entries assign, since they share the
    mapping, and none for an item that the pass skips. *)
Fixpoint assigned_keys (excluded_directories : list string)
    (exclude_hidden : bool) (item : node) {struct item} : list string :=
  if dict_skips excluded_directories exclude_hidden item then []
  else
    match item with
    | File n _ => if (suffix n =? ".py")%string then [stem n] else []
    | Dir n _ children =>
        if child_exists item "__init__.py" then [n]
        else flat_map (assigned_keys excluded_directories exclude_hidden)
               children
    end.

(** Two observations on one iteration of the loop of
    [_build_dict_structure]: the iteration leaves key [k] of the current
    mapping as it is, or it leaves [k] bound to [v]. *)
Definition keeps_key (excluded_directories : list string)
    (exclude_hidden : bool) (module_prefix k : string)
    (entry : node * (dict -> string -> dict)) : Prop :=
  forall d,
    dict_get (dict_item excluded_directories exclude_hidden module_prefix d
                entry) k
    = dict_get d k.

Definition binds_key (excluded_directories : list string)
    (exclude_hidden : bool) (module_prefix k : string) (v : value)
    (entry : node * (dict -> string -> dict)) : Prop :=
  forall d,
    dict_get (dict_item excluded_directories exclude_hidden module_prefix d
                entry) k
    = Some v.

(** ** Further operations of the two managers *)

(** The exceptions of the operations below, each with the path of the
    operation that raised it: [FileSystemError] and
    [DirectoryNotFoundError] of exceptions.py, and the built-in ones that
    [os.mkdir] and [open] raise; [OverflowErrorAt] is the [OverflowError] of
    [os.mkdir] for a mode outside a C [int]. *)
Inductive fs_exn : Type :=
| FileNotFoundError (p : path)
| DirectoryNotFoundError (p : path)
| FileSystemError (p : path)
| FileExistsError (p : path)
| NotADirectoryErrorAt (p : path)
| IsADirectoryError (p : path)
| OverflowErrorAt (p : path).

Inductive result (A : Type) : Type :=
| Ok (a : A)
| Err (e : fs_exn).
Arguments Ok {A} a.
Arguments Err {A} e.

(** [PermissionsManager.get_file_permissions(file_path)] on the tree [fs]
    below the manager's root. *)
Definition get_file_permissions (fs : node) (file_path : path) : result Z :=
  let full_path := file_path in
  match lookup full_path fs with
  | None => Err (FileNotFoundError full_path)
  | Some stat_info => Ok (Z.land (st_mode stat_info) perm_mask)
  end.

(** [extension is None or file_path.suffix == f".{extension}"] *)
Definition extension_matches (extension : option string) (file_name : string)
  : bool :=
  match extension with
  | None => true
  | Some ext => (suffix file_name =? "." ++ ext)%string
  end.

(** [full_path.iterdir()]: the entries of a directory, each with its path. *)
Definition iterdir (full_path : path) (children : list node)
  : list (path * node) :=
  map (fun c => (full_path ++ [name c], c)) children.

(** [full_path.rglob("*")]: the entries of the directory, then what the
    subdirectories yield, in listing order; the pattern matches every name,
    dotted ones included. *)
Fixpoint rglob_star (full_path : path) (directory : node) {struct directory}
  : list (path * node) :=
  match directory with
  | File _ _ => []
  | Dir _ _ children =>
      iterdir full_path children
      ++ flat_map (fun c =>
                     if is_dir c then rglob_star (full_path ++ [name c]) c
                     else [])
           children
  end.

(** [FilesystemManager.get_file_list(directory, extension, recursive)]:
    both loops append the paths of the plain files that pass the extension
    test. *)
Definition get_file_list (fs : node) (directory : path)
    (extension : option string) (recursive : bool) : result (list path) :=
  let full_path := directory in
  match lookup full_path fs with
  | Some (Dir n m children) =>
      let candidates :=
        if recursive then rglob_star full_path (Dir n m children)
        else iterdir full_path children in
      Ok (map fst
            (filter (fun entry =>
                       is_file (snd entry)
                       && extension_matches extension (name (snd entry)))
               candidates))
  | _ => Err (DirectoryNotFoundError full_path)
  end.

(** *** Creating folders and files (filesystem.py)

    The tree changes only through [shutil.rmtree], [Path.mkdir],
    [os.makedirs] and [open]; these fail here only for the reasons the tree
    shows (a plain file in the way).  A new entry is put at the end of the
    listing of its directory. *)

(** The [subfolders] argument of [create_folder]: [None] (or anything that
    is neither a dict nor a list), a list of names, or a dict from names to
    the [subfolders] of each.  A name is a relative path, given by its
    components. *)
Inductive subfolders : Type :=
| NoSubfolders
| SubfolderList (names : list path)
| SubfolderDict (items : list (path * subfolders)).

(** The state in which an operation of the manager leaves the tree, with
    its result. *)
Definition fs_run : Type := result unit * node.

(** [for x in xs: await step(x)], stopping at the first exception. *)
Definition for_each {A : Type} (step : A -> node -> fs_run)
  : list A -> node -> fs_run :=
  fix loop (xs : list A) (fs : node) : fs_run :=
    match xs with
    | [] => (Ok tt, fs)
    | x :: rest =>
        match step x fs with
        | (Ok _, fs') => loop rest fs'
        | (Err e, fs') => (Err e, fs')
        end
    end.

(** The listing without the entry named [child]. *)
Definition remove_child (child : string) (children : list node) : list node :=
  filter (fun c => negb (name c =? child)%string) children.

(** [shutil.rmtree(p)] for a path [p] below the root. *)
Fixpoint rmtree (p : path) (fs : node) : node :=
  match p, fs with
  | [child], Dir n m children => Dir n m (remove_child child children)
  | child :: p', Dir n m children =>
      match find_child child children with
      | Some c => Dir n m (replace_child child (rmtree p' c) children)
      | None => fs
      end
  | _, _ => fs
  end.

Section FilesystemManager.

(** What the operating system makes of a creation mode (the umask and the
    file type bits): the [st_mode] of a directory made by [os.mkdir] with a
    mode argument, and the [st_mode] of a file made by [open(..., 'w')]. *)
Variable mkdir_st_mode : Z -> Z.
Variable open_st_mode : Z.

(** The directories [child/p] when none of them exists: the last one is
    made with [mode], those above it with the default mode 0o777. *)
Fixpoint fresh_dirs (mode : Z) (child : string) (p : path) : node :=
  match p with
  | [] => Dir child (mkdir_st_mode mode) []
  | child' :: p' => Dir child (mkdir_st_mode 511) [fresh_dirs mode child' p']
  end.

(** [Path(full_path).mkdir(mode, parents=True, exist_ok=True)] and
    [os.makedirs(full_path, exist_ok=True)], with [p] the part of
    [full_path] below [fs]: an existing directory is left as it is, a plain
    file at the path or on the way to it raises. *)
Fixpoint mkdir_parents (full_path : path) (mode : Z) (p : path) (fs : node)
  : result node :=
  match p, fs with
  | [], Dir _ _ _ => Ok fs
  | [], File _ _ => Err (FileExistsError full_path)
  | _ :: _, File _ _ => Err (NotADirectoryErrorAt full_path)
  | child :: p', Dir n m children =>
      match find_child child children with
      | Some c =>
          match mkdir_parents full_path mode p' c with
          | Ok c' => Ok (Dir n m (replace_child child c' children))
          | Err e => Err e
          end
      | None => Ok (Dir n m (children ++ [fresh_dirs mode child p']))
      end
  end.

(** [full_path.mkdir(mode=permissions, parents=True, exist_ok=True)]:
    [os.mkdir] converts its mode first, so a mode outside a C [int] raises
    [OverflowError] whatever is at the path. *)
Definition mkdir (full_path : path) (permissions : Z) (fs : node)
  : result node :=
  if c_int permissions
  then mkdir_parents full_path permissions full_path fs
  else Err (OverflowErrorAt full_path).

(** The body of [create_folder] before the subfolders.  With [overwrite], an
    existing directory is removed before [mkdir] runs, so it stays removed
    when [mkdir] raises.  The tree has no state for a root that is removed:
    it shows as the root without its entries. *)
Definition create_one (full_path : path) (overwrite : bool) (permissions : Z)
    (fs : node) : fs_run :=
  match (if overwrite then lookup full_path fs else None) with
  | Some (File _ _) => (Err (FileSystemError full_path), fs)
  | Some (Dir _ _ _) =>
      match full_path with
      | [] =>
          if c_int permissions
          then (Ok tt, Dir (name fs) (mkdir_st_mode permissions) [])
          else (Err (OverflowErrorAt full_path), Dir (name fs) (st_mode fs) [])
      | _ :: _ =>
          let fs1 := rmtree full_path fs in
          match mkdir full_path permissions fs1 with
          | Ok fs2 => (Ok tt, fs2)
          | Err e => (Err e, fs1)
          end
      end
  | None =>
      match mkdir full_path permissions fs with
      | Ok fs' => (Ok tt, fs')
      | Err e => (Err e, fs)
      end
  end.

(** [create_folder(directory_name, overwrite, permissions, subfolders)].
    The call for a name of a list has no subfolders of its own, so it is
    the body [create_one]. *)
Fixpoint create_folder (directory_name : path) (overwrite : bool)
    (permissions : Z) (subfolders_ : subfolders) (fs : node)
    {struct subfolders_} : fs_run :=
  let full_path := directory_name in
  match create_one full_path overwrite permissions fs with
  | (Err e, fs1) => (Err e, fs1)
  | (Ok _, fs1) =>
      match subfolders_ with
      | NoSubfolders => (Ok tt, fs1)
      | SubfolderList names =>
          for_each
            (fun subfolder_name =>
               create_one (full_path ++ subfolder_name) overwrite permissions)
            names fs1
      | SubfolderDict items =>
          for_each
            (fun item =>
               create_folder (full_path ++ fst item) overwrite permissions
                 (snd item))
            items fs1
      end
  end.

(** [open(p, 'w')] on a path that does not exist, in an existing
    directory. *)
Fixpoint add_file (p : path) (fs : node) : node :=
  match p, fs with
  | [child], Dir n m children =>
      Dir n m (children ++ [File child open_st_mode])
  | child :: p', Dir n m children =>
      match find_child child children with
      | Some c => Dir n m (replace_child child (add_file p' c) children)
      | None => fs
      end
  | _, _ => fs
  end.

(** [create_file(file_path, sub_folder)]: [os.makedirs] on the parent of
    the path (the parent of the root is not part of the tree and exists),
    then [open(full_path, 'w')]; an existing file is truncated, which leaves
    its entry as it is. *)
Definition create_file (file_path : path) (sub_folder : option path)
    (fs : node) : fs_run :=
  let full_path :=
    match sub_folder with
    | Some folder => folder ++ file_path
    | None => file_path
    end in
  let parent := removelast full_path in
  match (match full_path with
         | [] => Ok fs
         | _ :: _ => mkdir_parents parent 511 parent fs
         end) with
  | Err e => (Err e, fs)
  | Ok fs1 =>
      match lookup full_path fs1 with
      | Some (Dir _ _ _) => (Err (IsADirectoryError full_path), fs1)
      | Some (File _ _) => (Ok tt, fs1)
      | None => (Ok tt, add_file full_path fs1)
      end
  end.

End FilesystemManager.

(** Observations on the tree before and after an operation: an entry is
    still there with its kind and its [st_mode]; every entry is; a path
    leads to a directory. *)
Definition same_entry (before after : node) : Prop :=
  name after = name before
  /\ st_mode after = st_mode before
  /\ is_dir after = is_dir before.

Definition keeps_entries (fs fs' : node) : Prop :=
  forall q entry,
    lookup q fs = Some entry ->
    exists entry', lookup q fs' = Some entry' /\ same_entry entry entry'.

Definition dir_at (p : path) (fs : node) : Prop :=
  exists entry, lookup p fs = Some entry /\ is_dir entry = true.

(** Further observations. *)
Definition run_outcome (r : run) : outcome unit := fst (fst r).

(** The letter that position [i] of a symbolic string shows for a set bit. *)
Definition rwx_letter (i : nat) : ascii :=
  match Nat.modulo i 3 with
  | O => "r"
  | S O => "w"
  | _ => "x"
  end%char.

(** A tree without its permission bits: names, kinds and listings. *)
Fixpoint shape (target : node) : node :=
  match target with
  | File n _ => File n 0
  | Dir n _ children => Dir n 0 (map shape children)
  end.

(** Every dotted path stored in a value starts with [module_prefix] and
    ends with the key it is stored under, at every depth of nesting. *)
Fixpoint leaves_fit (module_prefix k : string) (v : value) {struct v} : Prop :=
  match v with
  | Leaf module_path => exists q, module_path = (module_prefix ++ q ++ k)%string
  | Sub d =>
      fold_right
        (fun entry rest =>
           leaves_fit module_prefix (fst entry) (snd entry) /\ rest)
        True d
  end.

Definition dict_fits (module_prefix : string) (d : dict) : Prop :=
  leaves_fit module_prefix ""%string (Sub d).

(** The number of lines that the text pass gives to an entry: one for a
    source file, one for a directory that is not skipped plus those of its
    entries, none for anything else. *)
Fixpoint rendered_lines (excluded_directories : list string)
    (exclude_hidden : bool) (item : node) {struct item} : nat :=
  match item with
  | File n _ => if (suffix n =? ".py")%string then 1%nat else 0%nat
  | Dir _ _ children =>
      if markdown_skips excluded_directories exclude_hidden item then 0%nat
      else S (list_sum
                (map (rendered_lines excluded_directories exclude_hidden)
                   children))
  end.

(** * Properties *)

(** ** Permission codec *)

Section CodecFacts.

Import PermissionsManager.

Local Open Scope Z_scope.

Lemma permissions_to_rwx_triads (v : Z) :
  permissions_to_rwx v
  = (octal_digit_to_rwx (triad v 6) ++ octal_digit_to_rwx (triad v 3)
     ++ octal_digit_to_rwx (triad v 0))%string.
Proof.
  unfold permissions_to_rwx, triad, octal_digit_to_rwx. cbn [fold_left].
  repeat match goal with
         | |- context [if ?b then _ else _] => destruct b
         end; reflexivity.
Qed.

Lemma triad_div_mod (v shift : Z) :
  0 <= shift -> triad v shift = (v / 2 ^ shift) mod 8.
Proof.
  intros Hs. unfold triad.
  rewrite Z.shiftr_div_pow2 by assumption.
  change 7 with (Z.ones 3). rewrite Z.land_ones by lia. reflexivity.
Qed.

Lemma triad_range (v shift : Z) : 0 <= shift -> 0 <= triad v shift < 8.
Proof.
  intros Hs. rewrite triad_div_mod by assumption.
  apply Z.mod_pos_bound. lia.
Qed.

Lemma octal_digit_cases (d : Z) :
  0 <= d < 8 ->
  d = 0 \/ d = 1 \/ d = 2 \/ d = 3 \/ d = 4 \/ d = 5 \/ d = 6 \/ d = 7.
Proof. lia. Qed.

Lemma octal_digit_to_rwx_length (d : Z) :
  String.length (octal_digit_to_rwx d) = 3%nat.
Proof.
  unfold octal_digit_to_rwx.
  destruct (Z.land d 4 =? 0), (Z.land d 2 =? 0), (Z.land d 1 =? 0);
    reflexivity.
Qed.

Lemma octal_digit_to_rwx_alphabet (d : Z) :
  forallb rwx_char (list_ascii_of_string (octal_digit_to_rwx d)) = true.
Proof.
  unfold octal_digit_to_rwx.
  destruct (Z.land d 4 =? 0), (Z.land d 2 =? 0), (Z.land d 1 =? 0);
    reflexivity.
Qed.

Lemma string_length_app (s t : string) :
  String.length (s ++ t) = (String.length s + String.length t)%nat.
Proof. induction s as [|a s IH]; cbn; [reflexivity | now rewrite IH]. Qed.

Lemma list_ascii_of_string_app (s t : string) :
  list_ascii_of_string (s ++ t)
  = (list_ascii_of_string s ++ list_ascii_of_string t)%list.
Proof. induction s as [|a s IH]; cbn; [reflexivity | now rewrite IH]. Qed.

Lemma permissions_to_rwx_length (v : Z) :
  String.length (permissions_to_rwx v) = 9%nat.
Proof.
  rewrite permissions_to_rwx_triads, !string_length_app,
    !octal_digit_to_rwx_length.
  reflexivity.
Qed.

Lemma permissions_to_rwx_alphabet (v : Z) :
  forallb rwx_char (list_ascii_of_string (permissions_to_rwx v)) = true.
Proof.
  rewrite permissions_to_rwx_triads, !list_ascii_of_string_app, !forallb_app,
    !octal_digit_to_rwx_alphabet.
  reflexivity.
Qed.

(** C4: for every permission value [v] in [0, 0o777], [permissions_to_rwx]
    returns exactly 9 characters, each one of [r], [w], [x], [-]; 0o755,
    0o644, 0 and 0o777 map to "rwxr-xr-x", "rw-r--r--", "---------" and
    "rwxrwxrwx". *)
Theorem permissions_to_rwx_nine_symbols :
  (forall v : Z,
      0 <= v <= 511 ->
      String.length (permissions_to_rwx v) = 9%nat
      /\ forallb rwx_char (list_ascii_of_string (permissions_to_rwx v)) = true)
  /\ permissions_to_rwx 493 = "rwxr-xr-x"
  /\ permissions_to_rwx 420 = "rw-r--r--"
  /\ permissions_to_rwx 0 = "---------"
  /\ permissions_to_rwx 511 = "rwxrwxrwx".
Proof.
  split.
  - intros v _. split.
    + apply permissions_to_rwx_length.
    + apply permissions_to_rwx_alphabet.
  - repeat split; reflexivity.
Qed.

Lemma permissions_to_rwx_nine_symbols_witness :
  String.length (permissions_to_rwx 420) = 9%nat
  /\ forallb rwx_char (list_ascii_of_string (permissions_to_rwx 420)) = true.
Proof.
  apply (proj1 permissions_to_rwx_nine_symbols 420). lia.
Defined.

(** The value of a triad is what its three letters encode. *)
Lemma symbol_to_value_triads (a b c : Z) :
  0 <= a < 8 -> 0 <= b < 8 -> 0 <= c < 8 ->
  symbol_to_value
    (octal_digit_to_rwx a ++ octal_digit_to_rwx b ++ octal_digit_to_rwx c)
  = a * 64 + b * 8 + c.
Proof.
  intros Ha Hb Hc.
  destruct (octal_digit_cases a Ha) as [->|[->|[->|[->|[->|[->|[->| ->]]]]]]];
  destruct (octal_digit_cases b Hb) as [->|[->|[->|[->|[->|[->|[->| ->]]]]]]];
  destruct (octal_digit_cases c Hc) as [->|[->|[->|[->|[->|[->|[->| ->]]]]]]];
  reflexivity.
Qed.

Lemma triads_recompose (v : Z) :
  0 <= v <= 511 -> triad v 6 * 64 + triad v 3 * 8 + triad v 0 = v.
Proof.
  intros Hv. rewrite !triad_div_mod by lia.
  change (2 ^ 6) with 64. change (2 ^ 3) with 8. change (2 ^ 0) with 1.
  rewrite Z.div_1_r.
  pose proof (Z.div_mod v 64 ltac:(lia)).
  pose proof (Z.mod_pos_bound v 64 ltac:(lia)).
  pose proof (Z.div_mod v 8 ltac:(lia)).
  pose proof (Z.mod_pos_bound v 8 ltac:(lia)).
  pose proof (Z.div_mod (v / 64) 8 ltac:(lia)).
  pose proof (Z.mod_pos_bound (v / 64) 8 ltac:(lia)).
  pose proof (Z.div_mod (v / 8) 8 ltac:(lia)).
  pose proof (Z.mod_pos_bound (v / 8) 8 ltac:(lia)).
  lia.
Qed.

(** C3: on [0, 0o777], converting a permission value to its symbolic string
    and the string back gives the value again. *)
Theorem symbol_to_value_permissions_to_rwx (v : Z) :
  0 <= v <= 511 -> symbol_to_value (permissions_to_rwx v) = v.
Proof.
  intros Hv.
  rewrite permissions_to_rwx_triads.
  rewrite symbol_to_value_triads by (apply triad_range; lia).
  apply triads_recompose. assumption.
Qed.

Lemma symbol_to_value_permissions_to_rwx_witness :
  symbol_to_value (permissions_to_rwx 493) = 493.
Proof.
  apply (symbol_to_value_permissions_to_rwx 493). lia.
Defined.

Lemma triad_add_high (r q shift : Z) :
  shift = 0 \/ shift = 3 \/ shift = 6 ->
  ((r + q * 512) / 2 ^ shift) mod 8 = (r / 2 ^ shift) mod 8.
Proof.
  intros [->|[->| ->]].
  - change (2 ^ 0) with 1. rewrite !Z.div_1_r.
    replace (r + q * 512) with (r + (q * 64) * 8) by lia.
    apply Z.mod_add. lia.
  - change (2 ^ 3) with 8.
    replace (r + q * 512) with (r + (q * 64) * 8) by lia.
    rewrite Z.div_add by lia.
    replace (r / 8 + q * 64) with (r / 8 + (q * 8) * 8) by lia.
    apply Z.mod_add. lia.
  - change (2 ^ 6) with 64.
    replace (r + q * 512) with (r + (q * 8) * 64) by lia.
    rewrite Z.div_add by lia.
    apply Z.mod_add. lia.
Qed.

Lemma triad_mod (v shift : Z) :
  shift = 0 \/ shift = 3 \/ shift = 6 ->
  triad (v mod 512) shift = triad v shift.
Proof.
  intros Hs. rewrite !triad_div_mod by lia.
  rewrite <- (triad_add_high (v mod 512) (v / 512) shift Hs).
  pose proof (Z.div_mod v 512 ltac:(lia)).
  do 2 f_equal. lia.
Qed.

(** C10: [permissions_to_rwx] is defined on every nonnegative integer, also
    above 0o777, and returns the 9-character string of the low 9 bits: the
    result for [v] is the result for [v mod 0o1000]. *)
Theorem permissions_to_rwx_low_nine_bits (v : Z) :
  0 <= v ->
  permissions_to_rwx v = permissions_to_rwx (v mod 512)
  /\ String.length (permissions_to_rwx v) = 9%nat.
Proof.
  intros _. split.
  - rewrite !permissions_to_rwx_triads, !triad_mod by lia. reflexivity.
  - apply permissions_to_rwx_length.
Qed.

Lemma permissions_to_rwx_low_nine_bits_witness :
  permissions_to_rwx 2541 = permissions_to_rwx (2541 mod 512)
  /\ String.length (permissions_to_rwx 2541) = 9%nat.
Proof.
  apply (permissions_to_rwx_low_nine_bits 2541). lia.
Defined.

End CodecFacts.

(** ** Permission auditor *)

(** Induction on a tree with the hypothesis for every entry of a listing. *)
Lemma node_tree_ind (P : node -> Prop)
    (HFile : forall n m, P (File n m))
    (HDir : forall n m children, Forall P children -> P (Dir n m children)) :
  forall target, P target.
Proof.
  fix IH 1. intros [n m | n m children].
  - apply HFile.
  - apply HDir. induction children as [|c children IHc]; constructor.
    + apply IH.
    + exact IHc.
Qed.

Lemma find_child_name (child : string) (children : list node) (c : node) :
  find_child child children = Some c -> name c = child.
Proof.
  induction children as [|c' children IH]; cbn; [discriminate|].
  destruct (name c' =? child)%string eqn:E.
  - intros [= <-]. now apply String.eqb_eq.
  - exact IH.
Qed.

Lemma find_replace_child (child : string) (children : list node) (c new : node) :
  find_child child children = Some c -> name new = child ->
  find_child child (replace_child child new children) = Some new.
Proof.
  intros Hfind Hname.
  induction children as [|c' children IH]; cbn in *; [discriminate|].
  destruct (name c' =? child)%string eqn:E; cbn.
  - rewrite Hname, String.eqb_refl. reflexivity.
  - rewrite E. now apply IH.
Qed.

Lemma replace_child_same (child : string) (children : list node) (c : node) :
  find_child child children = Some c ->
  replace_child child c children = children.
Proof.
  induction children as [|c' children IH]; cbn; [reflexivity|].
  destruct (name c' =? child)%string.
  - now intros [= ->].
  - intros H. now rewrite IH.
Qed.

Lemma subst_name (p : path) (fs target new : node) :
  lookup p fs = Some target -> name new = name target ->
  name (subst p new fs) = name fs.
Proof.
  destruct p as [|c p]; cbn.
  - intros [= ->] Hn. exact Hn.
  - intros _ _. destruct fs as [|n m children]; [reflexivity|].
    destruct (find_child c children); reflexivity.
Qed.

Lemma lookup_subst (p : path) (fs target new : node) :
  lookup p fs = Some target -> name new = name target ->
  lookup p (subst p new fs) = Some new.
Proof.
  revert fs. induction p as [|c p IH]; intros fs Hl Hn; cbn in *.
  - reflexivity.
  - destruct fs as [|n m children]; [discriminate|].
    destruct (find_child c children) as [c'|] eqn:E; [|discriminate].
    cbn. rewrite (find_replace_child c children c' (subst p new c') E).
    + now apply IH.
    + rewrite (subst_name p c' target new Hl Hn).
      eapply find_child_name, E.
Qed.

Lemma subst_lookup_same (p : path) (fs target : node) :
  lookup p fs = Some target -> subst p target fs = fs.
Proof.
  revert fs. induction p as [|c p IH]; intros fs Hl; cbn in *.
  - now injection Hl as ->.
  - destruct fs as [|n m children]; [reflexivity|].
    destruct (find_child c children) as [c'|] eqn:E; [|reflexivity].
    rewrite (IH c' Hl), (replace_child_same c children c' E). reflexivity.
Qed.

Section AuditorFacts.

Variable os_fails : syscall -> bool.
Variable link_mode : path -> option Z.
Variable isdir_refused : path -> bool.
Variable request_permissions : Z.
Variable resolve : bool.

Local Notation "'audit_node'" :=
  (check_and_correct os_fails link_mode request_permissions resolve).
Local Notation "'walk'" :=
  (traverse os_fails link_mode isdir_refused request_permissions resolve).
Local Notation "'walk_children'" := (traverse_child_dirs isdir_refused walk).

Lemma check_and_correct_chmods (p : path) (mode : Z) (call : syscall) :
  In call (snd (audit_node p mode)) -> is_chmod call = true ->
  call = Chmod p request_permissions.
Proof.
  unfold check_and_correct.
  destruct (os_fails (Stat p resolve)); cbn [snd In].
  - intros [<-|[]]; discriminate.
  - destruct (Z.land (stat_mode link_mode resolve p mode) perm_mask
              =? request_permissions); cbn [snd In].
    + intros [<-|[]]; discriminate.
    + destruct (negb (c_int request_permissions)); cbn [snd In];
        [|destruct (os_fails (Chmod p request_permissions)); cbn [snd In]];
        intros [<-|[<-|[]]]; try discriminate; reflexivity.
Qed.

Lemma check_and_correct_carry (p : path) (mode : Z) :
  (Z.land (stat_mode link_mode resolve p mode) perm_mask
   =? request_permissions) = true ->
  snd (fst (audit_node p mode)) = mode
  /\ filter is_chmod (snd (audit_node p mode)) = [].
Proof.
  intros H. unfold check_and_correct. rewrite H.
  destruct (os_fails (Stat p resolve)); split; reflexivity.
Qed.

(** A test of [os.path.isdir] that holds is on a directory, and the test
    reads the name and the kind of the entry only. *)
Lemma isdir_is_dir (p : path) (c : node) :
  isdir isdir_refused p c = true -> is_dir c = true.
Proof. unfold isdir. intros H. now apply andb_prop in H. Qed.

Lemma isdir_same (p : path) (c c' : node) :
  name c' = name c -> is_dir c' = is_dir c ->
  isdir isdir_refused p c' = isdir isdir_refused p c.
Proof. unfold isdir. now intros -> ->. Qed.

(** [traverse] on the two kinds of node, by the parts of its result. *)
Lemma traverse_file (p : path) (n : string) (mode : Z) :
  run_node (walk p (File n mode)) = File n (snd (fst (audit_node p mode)))
  /\ forall call, In call (run_calls (walk p (File n mode))) ->
                  is_chmod call = true -> In call (snd (audit_node p mode)).
Proof.
  cbn [traverse st_mode].
  destruct (check_and_correct _ _ _ _ p mode) as [[r mode'] calls].
  destruct r as [u|e]; [destruct (os_fails (Listdir p))|]; cbn; split;
    try reflexivity; intros call Hin Hc; try assumption;
    apply in_app_or in Hin as [Hin|[<-|[]]]; try assumption; discriminate.
Qed.

Lemma traverse_dir (p : path) (n : string) (mode : Z) (children : list node) :
  exists children' calls',
    run_node (walk p (Dir n mode children))
    = Dir n (snd (fst (audit_node p mode))) children'
    /\ (children' = children
        \/ children' = snd (fst (walk_children p children)))
    /\ (forall call, In call (run_calls (walk p (Dir n mode children))) ->
                     is_chmod call = true ->
                     In call (snd (audit_node p mode)) \/ In call calls')
    /\ (calls' = []
        \/ calls' = snd (walk_children p children)).
Proof.
  cbn [traverse st_mode].
  destruct (check_and_correct _ _ _ _ p mode) as [[r mode'] calls].
  destruct r as [u|e].
  - destruct (os_fails (Listdir p)).
    + exists children, []. cbn. repeat split; auto.
      intros call Hin Hc. apply in_app_or in Hin as [Hin|[<-|[]]];
        [now left | discriminate].
    + destruct (traverse_child_dirs _ _ p children) as [[r' children'] calls'].
      exists children', calls'. cbn. repeat split; auto.
      intros call Hin Hc. apply in_app_or in Hin as [Hin|[<-|Hin]];
        [now left | discriminate | now right].
  - exists children, []. cbn. repeat split; auto.
Qed.

Lemma traverse_keeps_name (p : path) (target : node) :
  name (run_node (walk p target)) = name target
  /\ is_dir (run_node (walk p target)) = is_dir target.
Proof.
  destruct target as [n m | n m children].
  - destruct (traverse_file p n m) as [-> _]. split; reflexivity.
  - destruct (traverse_dir p n m children) as (cs' & calls' & -> & _).
    split; reflexivity.
Qed.

Lemma traverse_child_dirs_frame (p : path) (children : list node) :
  Forall (audit_frame os_fails link_mode isdir_refused request_permissions
            resolve) children ->
  flat_map (fun c => if is_dir c then files_below (p ++ [name c]) c
                     else [(p ++ [name c], st_mode c)])
    (snd (fst (walk_children p children)))
  = flat_map (fun c => if is_dir c then files_below (p ++ [name c]) c
                       else [(p ++ [name c], st_mode c)]) children
  /\ forall call, In call (snd (walk_children p children)) ->
                  is_chmod call = true ->
                  exists q, call = Chmod q request_permissions
                            /\ In q (flat_map
                                       (fun c => if is_dir c
                                                 then (p ++ [name c])
                                                      :: dirs_below (p ++ [name c]) c
                                                 else []) children).
Proof.
  induction 1 as [|child rest Hchild Hrest IH]; cbn [traverse_child_dirs].
  - split; [reflexivity | intros call []].
  - destruct IH as [IHfiles IHcalls].
    destruct (isdir isdir_refused p child) eqn:Htest.
    + pose proof (isdir_is_dir p child Htest) as Hdir.
      destruct (Hchild (p ++ [name child])) as [Hfiles Hcalls].
      destruct (traverse_keeps_name (p ++ [name child]) child) as [Hname Hkind].
      destruct (walk (p ++ [name child]) child) as [[r child'] calls] eqn:Ewalk.
      cbn [run_node run_calls fst snd] in *.
      assert (Hhead :
                (if is_dir child' then files_below (p ++ [name child']) child'
                 else [(p ++ [name child'], st_mode child')])
                = files_below (p ++ [name child]) child).
      { rewrite Hkind, Hdir, Hname. exact Hfiles. }
      assert (Hhere : forall call, In call calls -> is_chmod call = true ->
                exists q, call = Chmod q request_permissions
                          /\ In q ((p ++ [name child])
                                     :: dirs_below (p ++ [name child]) child)).
      { intros call Hin Hc. destruct (Hcalls call Hin Hc) as (q & -> & Hq).
        exists q. split; [reflexivity|]. destruct Hq as [->|Hq]; cbn; auto. }
      destruct r as [u|e].
      * destruct (walk_children p rest) as [[r' rest'] calls'].
        cbn [fst snd flat_map] in *. rewrite Hhead, Hdir, IHfiles.
        split; [reflexivity|].
        intros call Hin Hc. apply in_app_or in Hin as [Hin|Hin].
        -- destruct (Hhere call Hin Hc) as (q & -> & Hq).
           exists q. split; [reflexivity | apply in_or_app; now left].
        -- destruct (IHcalls call Hin Hc) as (q & -> & Hq).
           exists q. split; [reflexivity | apply in_or_app; now right].
      * cbn [fst snd flat_map]. rewrite Hhead, Hdir.
        split; [reflexivity|].
        intros call Hin Hc. destruct (Hhere call Hin Hc) as (q & -> & Hq).
        exists q. split; [reflexivity | apply in_or_app; now left].
    + destruct (walk_children p rest) as [[r' rest'] calls'].
      cbn [fst snd flat_map] in *. rewrite IHfiles.
      split; [reflexivity|].
      intros call Hin Hc. destruct (IHcalls call Hin Hc) as (q & -> & Hq).
      exists q. split; [reflexivity | apply in_or_app; now right].
Qed.

Lemma traverse_frame (target : node) :
  audit_frame os_fails link_mode isdir_refused request_permissions resolve
    target.
Proof.
  induction target as [n m | n m children IH] using node_tree_ind;
    intros p; cbv zeta.
  - destruct (traverse_file p n m) as [Hnode Hcalls]. rewrite Hnode.
    split; [reflexivity|].
    intros call Hin Hc. exists p. split; [|now left].
    apply (check_and_correct_chmods p m); [now apply Hcalls | exact Hc].
  - destruct (traverse_child_dirs_frame p children IH) as [Hfiles Hloop].
    destruct (traverse_dir p n m children)
      as (children' & calls' & Hnode & Hchildren & Hcalls & Hcalls').
    rewrite Hnode. split.
    + cbn [files_below]. destruct Hchildren as [->| ->];
        [reflexivity | exact Hfiles].
    + intros call Hin Hc. destruct (Hcalls call Hin Hc) as [Hhere|Hbelow].
      * exists p. split; [|now left].
        now apply (check_and_correct_chmods p m).
      * destruct Hcalls' as [->| ->]; [destruct Hbelow|].
        destruct (Hloop call Hbelow Hc) as (q & -> & Hq).
        exists q. split; [reflexivity | right; exact Hq].
Qed.

(** C5: for an existing audit target, every [chmod] of the audit is applied
    to the target itself or to a directory below it, and every plain file
    below the target keeps its permission bits; the tree outside the target
    is as before. *)
Theorem check_permissions_corrects_directories_only
    (fs : node) (directory_path : path) (target : node) :
  lookup directory_path fs = Some target ->
  let audit :=
    check_permissions os_fails link_mode isdir_refused request_permissions
      resolve fs directory_path in
  (forall call, In call (run_calls audit) -> is_chmod call = true ->
                exists q, call = Chmod q request_permissions
                          /\ (q = directory_path
                              \/ In q (dirs_below directory_path target)))
  /\ exists target',
      run_node audit = subst directory_path target' fs
      /\ lookup directory_path (run_node audit) = Some target'
      /\ files_below directory_path target'
         = files_below directory_path target.
Proof.
  intros Hlookup audit. subst audit. unfold check_permissions.
  rewrite Hlookup.
  destruct (traverse_frame target directory_path) as [Hfiles Hcalls].
  destruct (traverse_keeps_name directory_path target) as [Hname _].
  destruct (walk directory_path target) as [[r target'] calls].
  cbn [run_node run_calls fst snd] in *.
  split; [exact Hcalls|].
  exists target'. repeat split.
  - now apply (lookup_subst directory_path fs target target').
  - exact Hfiles.
Qed.

Lemma filter_none {A : Type} (f : A -> bool) (l : list A) :
  (forall x, In x l -> f x = true -> False) -> filter f l = [].
Proof.
  induction l as [|x l IH]; cbn; intros H; [reflexivity|].
  destruct (f x) eqn:E.
  - exfalso. apply (H x); auto.
  - apply IH. intros y Hy. apply H. now right.
Qed.

Lemma filter_none_in {A : Type} (f : A -> bool) (l : list A) (x : A) :
  filter f l = [] -> In x l -> f x = true -> False.
Proof.
  intros Hnone Hin Hf.
  assert (Hx : In x (filter f l)) by (apply filter_In; auto).
  rewrite Hnone in Hx. exact Hx.
Qed.




(** Without symbolic links, or with links followed, the mode that the audit
    reads is the mode of the directory. *)
Lemma stat_mode_followed (p : path) (mode : Z) :
  resolve = true \/ link_mode p = None ->
  stat_mode link_mode resolve p mode = mode.
Proof.
  unfold stat_mode. intros [->| ->]; [reflexivity|].
  now destruct resolve.
Qed.

Lemma dirs_carry_stat_carry (target : node) (p : path) :
  resolve = true \/ (forall q, link_mode q = None) ->
  dirs_carry request_permissions target = true ->
  stat_carry link_mode resolve request_permissions p target = true.
Proof.
  intros Hlinks. revert p.
  induction target as [n m | n m children IH] using node_tree_ind;
    intros p Hcarry; cbn [dirs_carry stat_carry st_mode] in *;
    apply andb_prop in Hcarry as [Hmode Hbelow];
    (rewrite stat_mode_followed by (destruct Hlinks; auto));
    rewrite Hmode; [reflexivity|]. cbn [andb].
  rewrite forallb_forall in *. intros c Hc.
  rewrite Forall_forall in IH. specialize (Hbelow c Hc).
  destruct (is_dir c); [now apply IH | reflexivity].
Qed.


End AuditorFacts.

(** A small tree for the instances below: [root/a] has mode 0o700, [root]
    and [root/a/b] have mode 0o755, and there are two plain files. *)
Lemma check_permissions_corrects_directories_only_witness :
  let fs := Dir "root" 16877
              [Dir "a" 16832 [File "f" 33188; Dir "b" 16877 []];
               File "g" 33152] in
  let target := Dir "a" 16832 [File "f" 33188; Dir "b" 16877 []] in
  let audit :=
    check_permissions (fun _ => false) (fun _ => None) (fun _ => false) 493
      false fs ["a"] in
  (forall call, In call (run_calls audit) -> is_chmod call = true ->
                exists q, call = Chmod q 493
                          /\ (q = ["a"] \/ In q (dirs_below ["a"] target)))
  /\ exists target',
      run_node audit = subst ["a"] target' fs
      /\ lookup ["a"] (run_node audit) = Some target'
      /\ files_below ["a"] target' = files_below ["a"] target.
Proof.
  intros fs target.
  apply (check_permissions_corrects_directories_only
           (fun _ => false) (fun _ => None) (fun _ => false) 493 false fs
           ["a"] target).
  reflexivity.
Defined.




(** ** Directory tree renderer *)

Section StringFacts.

Local Open Scope nat_scope.
Local Open Scope string_scope.

Lemma string_append_assoc (s t u : string) : (s ++ t) ++ u = s ++ t ++ u.
Proof. induction s as [|a s IH]; cbn; [reflexivity | now rewrite IH]. Qed.

Lemma substring_whole (s : string) : substring 0 (String.length s) s = s.
Proof. induction s as [|a s IH]; cbn; [reflexivity | now rewrite IH]. Qed.

Lemma substring_split (s : string) (i : nat) :
  i <= String.length s ->
  substring 0 i s ++ substring i (String.length s - i) s = s.
Proof.
  revert i. induction s as [|a s IH]; intros [|i] Hi; cbn in *.
  - reflexivity.
  - lia.
  - now rewrite substring_whole.
  - rewrite IH by lia. reflexivity.
Qed.

Lemma substring_take (s t : string) : substring 0 (String.length s) (s ++ t) = s.
Proof. induction s as [|a s IH]; cbn; [now destruct t | now rewrite IH]. Qed.

Lemma substring_drop (s t : string) (k : nat) :
  substring (String.length s) k (s ++ t) = substring 0 k t.
Proof. induction s as [|a s IH]; cbn; [reflexivity | exact IH]. Qed.

Lemma rfind_dot_py (s : string) : rfind "." (s ++ ".py") = Some (String.length s).
Proof. induction s as [|a s IH]; cbn; [reflexivity | now rewrite IH]. Qed.

Lemma source_name_test (s : string) :
  s <> "" ->
  ((0 <? String.length s)%nat
   && (String.length s <? String.length (s ++ ".py") - 1)%nat)%bool
  = true.
Proof.
  intros Hs. rewrite string_length_app. cbn [String.length].
  destruct s as [|a s]; [contradiction|]. cbn [String.length].
  apply andb_true_intro. split; [reflexivity | apply Nat.ltb_lt; lia].
Qed.

Lemma suffix_py (s : string) : s <> "" -> suffix (s ++ ".py") = ".py".
Proof.
  intros Hs. unfold suffix.
  rewrite rfind_dot_py, source_name_test by assumption.
  rewrite substring_drop, string_length_app.
  replace (String.length s + String.length ".py" - String.length s) with 3
    by (cbn; lia).
  reflexivity.
Qed.

Lemma stem_py (s : string) : s <> "" -> stem (s ++ ".py") = s.
Proof.
  intros Hs. unfold stem.
  rewrite rfind_dot_py, source_name_test by assumption.
  apply substring_take.
Qed.

Lemma suffix_stem (nm : string) : suffix nm = ".py" -> nm = stem nm ++ ".py".
Proof.
  unfold suffix, stem.
  destruct (rfind "." nm) as [i|]; [|discriminate].
  destruct ((0 <? i)%nat && (i <? String.length nm - 1)%nat)%bool eqn:E;
    [|discriminate].
  intros <-. symmetry. apply substring_split.
  apply andb_prop in E as [_ E]. apply Nat.ltb_lt in E. lia.
Qed.

End StringFacts.

Section ContainerFacts.

Lemma insert_sorted_in {A : Type} (le : A -> A -> bool) (x y : A) (l : list A) :
  In y (insert_sorted le x l) <-> y = x \/ In y l.
Proof.
  induction l as [|z l IH]; cbn.
  - intuition congruence.
  - destruct (le x z); cbn; [intuition congruence|].
    rewrite IH. intuition congruence.
Qed.

Lemma sorted_in {A : Type} (le : A -> A -> bool) (y : A) (l : list A) :
  In y (sorted le l) <-> In y l.
Proof.
  induction l as [|x l IH]; cbn; [reflexivity|].
  rewrite insert_sorted_in, IH. intuition congruence.
Qed.

Lemma dict_get_set_same (d : dict) (k : string) (v : value) :
  dict_get (dict_set d k v) k = Some v.
Proof.
  induction d as [|[k' v'] d IH]; cbn.
  - now rewrite String.eqb_refl.
  - destruct (k' =? k)%string eqn:E; cbn.
    + now rewrite String.eqb_refl.
    + now rewrite E.
Qed.

Lemma dict_get_set_other (d : dict) (k k' : string) (v : value) :
  k <> k' -> dict_get (dict_set d k v) k' = dict_get d k'.
Proof.
  intros Hk. induction d as [|[k0 v0] d IH]; cbn.
  - apply String.eqb_neq in Hk. now rewrite Hk.
  - destruct (k0 =? k)%string eqn:E; cbn.
    + apply String.eqb_eq in E. subst k0.
      apply String.eqb_neq in Hk. now rewrite Hk.
    + destruct (k0 =? k')%string; [reflexivity | exact IH].
Qed.

End ContainerFacts.

Section MappingFacts.

Local Open Scope string_scope.

Variable excluded_directories : list string.
Variable exclude_hidden : bool.

Local Notation "'skips'" := (dict_skips excluded_directories exclude_hidden).
Local Notation "'build'" :=
  (_build_dict_structure excluded_directories exclude_hidden).
Local Notation "'step'" := (dict_item excluded_directories exclude_hidden).
Local Notation "'keeps'" := (keeps_key excluded_directories exclude_hidden).
Local Notation "'binds'" := (binds_key excluded_directories exclude_hidden).

(** The sorted listing that the loop of [_build_dict_structure] runs over. *)
Local Notation "'listing' children" :=
  (sorted (fun x y => path_le (fst x) (fst y))
     (map (fun c => (c, build c)) children))
  (at level 10, children at level 9).

Lemma listing_in (children : list node) (entry : node * (dict -> string -> dict)) :
  In entry (listing children) <->
  exists c, In c children /\ entry = (c, build c).
Proof.
  rewrite sorted_in, in_map_iff. split; intros (c & H1 & H2); exists c; auto.
Qed.

Lemma fold_keeps (p k : string) (l : list (node * (dict -> string -> dict)))
    (d : dict) :
  (forall entry, In entry l -> keeps p k entry) ->
  dict_get (fold_left (step p) l d) k = dict_get d k.
Proof.
  revert d. induction l as [|entry l IH]; intros d Hl; cbn; [reflexivity|].
  rewrite IH by (intros e He; apply Hl; now right).
  apply Hl. now left.
Qed.

Lemma file_keeps (n : string) (md : Z) (b : dict -> string -> dict)
    (p k : string) :
  n <> k ++ ".py" -> keeps p k (File n md, b).
Proof.
  intros Hn d. unfold dict_item. cbn [is_dir name].
  destruct (skips (File n md)); [reflexivity|].
  destruct (suffix n =? ".py") eqn:E; [|reflexivity].
  apply dict_get_set_other. intros <-.
  apply Hn, suffix_stem. now apply String.eqb_eq.
Qed.

Lemma file_binds (m : string) (md : Z) (b : dict -> string -> dict)
    (p : string) :
  m <> "" -> skips (File (m ++ ".py") md) = false ->
  binds p m (Leaf (p ++ m)) (File (m ++ ".py") md, b).
Proof.
  intros Hm Hskip d. unfold dict_item. rewrite Hskip. cbn [is_dir name].
  rewrite suffix_py, stem_py by assumption. cbn [String.eqb Ascii.eqb Bool.eqb].
  apply dict_get_set_same.
Qed.

Lemma package_binds (n : string) (md : Z) (kids : list node) (p : string) :
  skips (Dir n md kids) = false ->
  child_exists (Dir n md kids) "__init__.py" = true ->
  binds p n (Sub (build (Dir n md kids) [] (p ++ n ++ ".")))
    (Dir n md kids, build (Dir n md kids)).
Proof.
  intros Hskip Hmarker d. unfold dict_item. rewrite Hskip, Hmarker.
  cbn [is_dir name].
  destruct (p =? "") eqn:E.
  - apply String.eqb_eq in E. subst p. apply dict_get_set_same.
  - apply dict_get_set_same.
Qed.

Lemma plain_directory_step (n : string) (md : Z) (kids : list node)
    (p : string) (d : dict) :
  skips (Dir n md kids) = false ->
  child_exists (Dir n md kids) "__init__.py" = false ->
  step p d (Dir n md kids, build (Dir n md kids))
  = build (Dir n md kids) d (p ++ n ++ ".").
Proof.
  intros Hskip Hmarker. unfold dict_item. rewrite Hskip, Hmarker. reflexivity.
Qed.

End MappingFacts.

Section MappingOfSubdirectory.

Local Open Scope string_scope.

Variable excluded_directories : list string.
Variable exclude_hidden : bool.

Local Notation "'skips'" := (dict_skips excluded_directories exclude_hidden).
Local Notation "'build'" :=
  (_build_dict_structure excluded_directories exclude_hidden).
Local Notation "'step'" := (dict_item excluded_directories exclude_hidden).
Local Notation "'keeps'" := (keeps_key excluded_directories exclude_hidden).
Local Notation "'binds'" := (binds_key excluded_directories exclude_hidden).
Local Notation "'assigned'" :=
  (assigned_keys excluded_directories exclude_hidden).

(** Sorting the listing and pairing each entry with its recursive call
    commute: the loop runs over the entries in the order of their names. *)
Lemma insert_sorted_paired (c : node) (l : list node) :
  insert_sorted (fun x y => path_le (fst x) (fst y)) (c, build c)
    (map (fun c => (c, build c)) l)
  = map (fun c => (c, build c)) (insert_sorted path_le c l).
Proof.
  induction l as [|c' l IH]; cbn [map insert_sorted fst]; [reflexivity|].
  destruct (path_le c c'); cbn [map]; [reflexivity | now rewrite IH].
Qed.

Lemma listing_sorted (children : list node) :
  sorted (fun x y => path_le (fst x) (fst y))
    (map (fun c => (c, build c)) children)
  = map (fun c => (c, build c)) (sorted path_le children).
Proof.
  unfold sorted. induction children as [|c children IH];
    cbn [map fold_right]; [reflexivity|].
  rewrite IH. apply insert_sorted_paired.
Qed.

(** An iteration leaves every key alone that its item does not assign. *)
Lemma item_keeps (item : node) (p k : string) :
  ~ In k (assigned item) -> keeps p k (item, build item).
Proof.
  revert p.
  induction item as [n md | n md children IH] using node_tree_ind;
    intros p Hk d; unfold dict_item; cbn [assigned_keys] in Hk;
    destruct (skips _); try reflexivity; cbn [is_dir name] in *.
  - destruct (suffix n =? ".py"); [|reflexivity].
    apply dict_get_set_other. intros Heq. apply Hk. now left.
  - destruct (child_exists (Dir n md children) "__init__.py").
    + apply dict_get_set_other. intros Heq. apply Hk. now left.
    + cbn [_build_dict_structure]. apply fold_keeps.
      intros entry Hentry. apply listing_in in Hentry as (c & Hc & ->).
      rewrite Forall_forall in IH. apply (IH c Hc).
      intros Hin. apply Hk. apply in_flat_map. now exists c.
Qed.

(** The last iteration that assigns a key decides its value. *)
Lemma build_binds (n : string) (md : Z) (children before after : list node)
    (c : node) (p k : string) (v : value) (d : dict) :
  sorted path_le children = (before ++ c :: after)%list ->
  binds p k v (c, build c) ->
  (forall c', In c' after -> ~ In k (assigned c')) ->
  dict_get (build (Dir n md children) d p) k = Some v.
Proof.
  intros Hsorted Hbinds Hafter. cbn [_build_dict_structure].
  rewrite listing_sorted, Hsorted, map_app, fold_left_app.
  cbn [map fold_left]. rewrite fold_keeps; [apply Hbinds|].
  intros entry Hentry. apply in_map_iff in Hentry as (c' & <- & Hc').
  apply item_keeps. now apply Hafter.
Qed.

Lemma build_keeps (n : string) (md : Z) (children : list node)
    (p k : string) (d : dict) :
  (forall c, In c children -> ~ In k (assigned c)) ->
  dict_get (build (Dir n md children) d p) k = dict_get d k.
Proof.
  intros Hk. cbn [_build_dict_structure]. apply fold_keeps.
  intros entry Hentry. apply listing_in in Hentry as (c & Hc & ->).
  apply item_keeps. now apply Hk.
Qed.

(** What [generate_directory_tree] returns as mapping: the root is visited
    with the empty mapping, and with its own name as key and prefix when it
    holds the marker file. *)
Lemma generate_directory_tree_mapping (n : string) (md : Z)
    (children : list node) (excluded : option (list string))
    (output_format : string) (formatter : option (string -> string)) :
  excluded_or_default excluded = excluded_directories ->
  str_in output_format ["dict"; "both"] = true ->
  exists text,
    generate_directory_tree (Dir n md children) excluded exclude_hidden
      output_format formatter
    = Returned
        (text,
         Some (if child_exists (Dir n md children) "__init__.py"
               then [(n, Sub (build (Dir n md children) [] (n ++ ".")))]
               else build (Dir n md children) [] "")).
Proof.
  intros <- Hformat. unfold generate_directory_tree. cbv zeta.
  rewrite Hformat.
  destruct (str_in output_format ["markdown"; "both"]); cbn [bind];
    destruct (child_exists (Dir n md children) "__init__.py");
    eexists; reflexivity.
Qed.

End MappingOfSubdirectory.

(** C1, as amended.  [_build_dict_structure] visits the directory [path_]
    with the mapping [current_dict] and the prefix [module_prefix]; for the
    root these are the empty mapping and the empty prefix, or the root's own
    name as prefix, under the root's name as key, when the root holds the
    marker file.  [sub] is a subdirectory of [path_] that the pass does not
    skip, and [m.py] a source file of [sub] that it does not skip.  An entry
    comes later when it sorts after another by name.

    When [sub] holds the marker file and no later entry of [path_] assigns
    the key [sub], the mapping binds the name of [sub] to the nested mapping
    built from the empty one, and in it, when no later entry of [sub]
    assigns the key [m], [m] is bound to [module_prefix + sub.m].  When
    [sub] holds no marker file, and no later entry of [sub] or of [path_]
    assigns the key [m], the mapping binds [m] to [module_prefix + sub.m];
    more generally, at every depth, what the visit of [sub] with the prefix
    [module_prefix + sub.] binds is bound in the mapping of [path_] unless a
    later entry of [path_] assigns the key; and when no entry of [path_]
    assigns the key [sub], the mapping has that key only if it had it
    before. *)
Theorem mapping_of_package_and_plain_directory
    (excluded_directories : option (list string)) (exclude_hidden : bool)
    (path_name : string) (path_mode : Z) (children : list node)
    (current_dict : dict) (module_prefix : string)
    (before after : list node)
    (sub_name : string) (sub_mode : Z) (kids : list node) :
  let excluded := excluded_or_default excluded_directories in
  let build := _build_dict_structure excluded exclude_hidden in
  let assigns := fun (c : node) (k : string) =>
                   In k (assigned_keys excluded exclude_hidden c) in
  let path_ := Dir path_name path_mode children in
  let sub := Dir sub_name sub_mode kids in
  let nested := build sub [] (module_prefix ++ sub_name ++ ".")%string in
  sorted path_le children = before ++ sub :: after ->
  dict_skips excluded exclude_hidden sub = false ->
  (forall output_format formatter,
      str_in output_format ["dict"; "both"]%string = true ->
      exists text,
        generate_directory_tree path_ excluded_directories exclude_hidden
          output_format formatter
        = Returned
            (text,
             Some (if child_exists path_ "__init__.py"
                   then [(path_name, Sub (build path_ [] (path_name ++ ".")%string))]
                   else build path_ [] ""%string)))
  /\ (child_exists sub "__init__.py" = true ->
      (forall c, In c after -> ~ assigns c sub_name) ->
      dict_get (build path_ current_dict module_prefix) sub_name
      = Some (Sub nested)
      /\ forall m m_mode kids_before kids_after,
          sorted path_le kids
          = kids_before ++ File (m ++ ".py")%string m_mode :: kids_after ->
          m <> ""%string ->
          dict_skips excluded exclude_hidden (File (m ++ ".py")%string m_mode)
          = false ->
          (forall c, In c kids_after -> ~ assigns c m) ->
          dict_get nested m
          = Some (Leaf (module_prefix ++ sub_name ++ "." ++ m)%string))
  /\ (child_exists sub "__init__.py" = false ->
      (forall m m_mode kids_before kids_after,
          sorted path_le kids
          = kids_before ++ File (m ++ ".py")%string m_mode :: kids_after ->
          m <> ""%string ->
          dict_skips excluded exclude_hidden (File (m ++ ".py")%string m_mode)
          = false ->
          (forall c, In c kids_after -> ~ assigns c m) ->
          (forall c, In c after -> ~ assigns c m) ->
          dict_get (build path_ current_dict module_prefix) m
          = Some (Leaf (module_prefix ++ sub_name ++ "." ++ m)%string))
      /\ (forall k v,
             (forall d,
                 dict_get (build sub d (module_prefix ++ sub_name ++ ".")%string)
                   k
                 = Some v) ->
             (forall c, In c after -> ~ assigns c k) ->
             dict_get (build path_ current_dict module_prefix) k = Some v)
      /\ ((forall c, In c children -> ~ assigns c sub_name) ->
          dict_get (build path_ current_dict module_prefix) sub_name
          = dict_get current_dict sub_name)).
Proof.
  intros excluded build assigns path_ sub nested Hsorted Hskip.
  subst build assigns path_ sub nested.
  assert (Hpath : forall p m,
             ((p ++ sub_name ++ ".") ++ m = p ++ sub_name ++ "." ++ m)%string).
  { intros p m. now rewrite !string_append_assoc. }
  assert (Hfile : forall p m m_mode kids_before kids_after d,
             sorted path_le kids
             = kids_before ++ File (m ++ ".py")%string m_mode :: kids_after ->
             m <> ""%string ->
             dict_skips excluded exclude_hidden
               (File (m ++ ".py")%string m_mode) = false ->
             (forall c, In c kids_after ->
                        ~ In m (assigned_keys excluded exclude_hidden c)) ->
             dict_get (_build_dict_structure excluded exclude_hidden
                         (Dir sub_name sub_mode kids) d
                         (p ++ sub_name ++ ".")%string) m
             = Some (Leaf (p ++ sub_name ++ "." ++ m)%string)).
  { intros p m m_mode kids_before kids_after d Hkids Hm Hsource Hlater.
    rewrite <- Hpath.
    apply (build_binds excluded exclude_hidden sub_name sub_mode kids
             kids_before kids_after (File (m ++ ".py")%string m_mode));
      [exact Hkids | now apply file_binds | exact Hlater]. }
  split; [|split].
  - intros output_format formatter Hformat.
    now apply generate_directory_tree_mapping.
  - intros Hmarker Hlater. split.
    + apply (build_binds excluded exclude_hidden path_name path_mode children
               before after (Dir sub_name sub_mode kids));
        [exact Hsorted | now apply package_binds | exact Hlater].
    + intros m m_mode kids_before kids_after. apply Hfile.
  - intros Hmarker.
    assert (Hflat : forall k v,
               (forall d,
                   dict_get (_build_dict_structure excluded exclude_hidden
                               (Dir sub_name sub_mode kids) d
                               (module_prefix ++ sub_name ++ ".")%string) k
                   = Some v) ->
               (forall c, In c after ->
                          ~ In k (assigned_keys excluded exclude_hidden c)) ->
               dict_get (_build_dict_structure excluded exclude_hidden
                           (Dir path_name path_mode children) current_dict
                           module_prefix) k
               = Some v).
    { intros k v Hbound Hafter.
      apply (build_binds excluded exclude_hidden path_name path_mode children
               before after (Dir sub_name sub_mode kids));
        [exact Hsorted | | exact Hafter].
      intros d. rewrite plain_directory_step by assumption. apply Hbound. }
    split; [|split].
    + intros m m_mode kids_before kids_after Hkids Hm Hsource Hlater Hafter.
      apply Hflat; [|exact Hafter]. intros d.
      now apply (Hfile module_prefix m m_mode kids_before kids_after).
    + exact Hflat.
    + apply build_keeps.
Qed.

(** Four instances.  In [proj/], which holds [docs/], the package [pkg/]
    with [m.py] and the directory [util/], and [plain/] with [m.py]: the
    package and the directory without marker file of the specification's
    example.  In the package root [proj/]: the package [pkg/] has the prefix
    of the root.  In [top/], which holds [outer/inner/m.py] and no marker
    file: each directory adds its name to the prefix. *)
Lemma mapping_of_package_and_plain_directory_witness :
  let pkg := Dir "pkg" 493
               [File "m.py" 420; Dir "util" 493 [File "helpers.py" 420];
                File "__init__.py" 420] in
  let plain := Dir "plain" 493 [File "m.py" 420] in
  let docs := Dir "docs" 493 [File "notes.txt" 420] in
  let proj := Dir "proj" 493 [plain; pkg; docs] in
  let root := Dir "proj" 493 [pkg; File "__init__.py" 420] in
  (exists text mapping nested,
      generate_directory_tree proj None true "both" None
      = Returned (text, Some mapping)
      /\ dict_get mapping "pkg" = Some (Sub nested)
      /\ dict_get nested "m" = Some (Leaf "pkg.m")
      /\ dict_get mapping "m" = Some (Leaf "plain.m")
      /\ dict_get mapping "plain" = None)
  /\ (exists text mapping nested,
         generate_directory_tree root None true "dict" None
         = Returned (text, Some [("proj"%string, Sub mapping)])
         /\ dict_get mapping "pkg" = Some (Sub nested)
         /\ dict_get nested "m" = Some (Leaf "proj.pkg.m"))
  /\ (exists text mapping,
         generate_directory_tree
           (Dir "top" 493 [Dir "outer" 493 [Dir "inner" 493 [File "m.py" 420]]])
           None true "dict" None
         = Returned (text, Some mapping)
         /\ dict_get mapping "m" = Some (Leaf "outer.inner.m")).
Proof.
  intros pkg plain docs proj root.
  assert (Hm : "m"%string <> ""%string) by discriminate.
  split; [|split].
  - destruct (mapping_of_package_and_plain_directory None true "proj" 493
                [plain; pkg; docs] [] "" [docs] [plain] "pkg" 493
                [File "m.py" 420; Dir "util" 493 [File "helpers.py" 420];
                 File "__init__.py" 420] eq_refl eq_refl)
      as (Hcall & Hpackage & _).
    destruct (mapping_of_package_and_plain_directory None true "proj" 493
                [plain; pkg; docs] [] "" [docs; pkg] [] "plain" 493
                [File "m.py" 420] eq_refl eq_refl)
      as (_ & _ & Hplain).
    destruct (Hcall "both"%string None eq_refl) as [text Htext].
    destruct Hpackage as [Hsub Hnested];
      [reflexivity | intros c [<-|[]]; cbn; intuition discriminate |].
    destruct (Hplain eq_refl) as (Hflat & _ & Hnokey).
    exists text. eexists. eexists. split; [exact Htext|].
    split; [exact Hsub|]. split; [|split].
    + apply (Hnested "m"%string 420 [File "__init__.py" 420]
               [Dir "util" 493 [File "helpers.py" 420]]);
        [reflexivity | exact Hm | reflexivity
         | intros c [<-|[]]; cbn; intuition discriminate].
    + apply (Hflat "m"%string 420 [] []);
        [reflexivity | exact Hm | reflexivity | intros c [] | intros c []].
    + apply Hnokey.
      intros c [<-|[<-|[<-|[]]]]; cbn; intuition discriminate.
  - destruct (mapping_of_package_and_plain_directory None true "proj" 493
                [pkg; File "__init__.py" 420] [] "proj."
                [File "__init__.py" 420] [] "pkg" 493
                [File "m.py" 420; Dir "util" 493 [File "helpers.py" 420];
                 File "__init__.py" 420] eq_refl eq_refl)
      as (Hcall & Hpackage & _).
    destruct (Hcall "dict"%string None eq_refl) as [text Htext].
    destruct Hpackage as [Hsub Hnested]; [reflexivity | intros c [] |].
    exists text. eexists. eexists.
    split; [exact Htext|]. split; [exact Hsub|].
    apply (Hnested "m"%string 420 [File "__init__.py" 420]
             [Dir "util" 493 [File "helpers.py" 420]]);
      [reflexivity | exact Hm | reflexivity
       | intros c [<-|[]]; cbn; intuition discriminate].
  - destruct (mapping_of_package_and_plain_directory None true "top" 493
                [Dir "outer" 493 [Dir "inner" 493 [File "m.py" 420]]] [] ""
                [] [] "outer" 493 [Dir "inner" 493 [File "m.py" 420]]
                eq_refl eq_refl)
      as (Hcall & _ & Houter).
    destruct (Hcall "dict"%string None eq_refl) as [text Htext].
    destruct (Houter eq_refl) as (_ & Hdeep & _).
    exists text. eexists. split; [exact Htext|].
    apply Hdeep; [|intros c []]. intros d.
    destruct (mapping_of_package_and_plain_directory None true "outer" 493
                [Dir "inner" 493 [File "m.py" 420]] d "outer."
                [] [] "inner" 493 [File "m.py" 420] eq_refl eq_refl)
      as (_ & _ & Hinner).
    destruct (Hinner eq_refl) as (Hfile & _).
    apply (Hfile "m"%string 420 [] []);
      [reflexivity | exact Hm | reflexivity | intros c [] | intros c []].
Defined.

(** The claim as worded fails on these trees.  In the first, the directory
    [z/] next to the package [pkg/] holds [pkg.py], whose key replaces the
    nested mapping.  In the second, the root is itself a package, so [pkg]
    is no key of the mapping output and the dotted paths start with the name
    of the root.  In the third, [pkg/util/] holds a second [m.py], whose
    dotted path replaces [pkg.m].  In the fourth, [zed/] holds a second
    [m.py] and [plain/] holds [plain.py], so [m] is not bound to [plain.m]
    and there is a key [plain]. *)
Lemma mapping_of_subdirectory_overwritten :
  let package := [File "__init__.py" 420; File "m.py" 420] in
  (exists mapping,
      generate_directory_tree
        (Dir "proj" 493
           [Dir "pkg" 493 package; Dir "z" 493 [File "pkg.py" 420]])
        None true "dict" None
      = Returned (None, Some mapping)
      /\ mapping = [("pkg"%string, Leaf "z.pkg")]
      /\ ~ exists nested, dict_get mapping "pkg" = Some (Sub nested))
  /\ (exists mapping,
         generate_directory_tree
           (Dir "proj" 493 [File "__init__.py" 420; Dir "pkg" 493 package])
           None true "dict" None
         = Returned (None, Some mapping)
         /\ mapping
            = [("proj"%string,
                Sub [("__init__"%string, Leaf "proj.__init__");
                     ("pkg"%string,
                      Sub [("__init__"%string, Leaf "proj.pkg.__init__");
                           ("m"%string, Leaf "proj.pkg.m")])])]
         /\ dict_get mapping "pkg" = None)
  /\ (exists mapping nested,
         generate_directory_tree
           (Dir "proj" 493
              [Dir "pkg" 493
                 [File "__init__.py" 420; File "m.py" 420;
                  Dir "util" 493 [File "m.py" 420]]])
           None true "dict" None
         = Returned (None, Some mapping)
         /\ dict_get mapping "pkg" = Some (Sub nested)
         /\ dict_get nested "m" = Some (Leaf "pkg.util.m")
         /\ dict_get nested "m" <> Some (Leaf "pkg.m"))
  /\ (exists mapping,
         generate_directory_tree
           (Dir "proj" 493
              [Dir "plain" 493 [File "m.py" 420; File "plain.py" 420];
               Dir "zed" 493 [File "m.py" 420]])
           None true "dict" None
         = Returned (None, Some mapping)
         /\ mapping
            = [("m"%string, Leaf "zed.m"); ("plain"%string, Leaf "plain.plain")]
         /\ dict_get mapping "m" <> Some (Leaf "plain.m")
         /\ dict_get mapping "plain" <> None).
Proof.
  cbv zeta. repeat split.
  - eexists. split; [reflexivity|]. split; [reflexivity|].
    intros [nested H]. discriminate.
  - eexists. split; [reflexivity|]. split; reflexivity.
  - eexists. eexists. split; [reflexivity|]. split; [reflexivity|].
    split; [reflexivity | discriminate].
  - eexists. split; [reflexivity|]. split; [reflexivity|].
    split; discriminate.
Qed.

(** The whole mapping of the example tree of the specification: the marker
    file is a source file too and has its own key in the nested mapping. *)
Lemma mapping_of_package_example :
  generate_directory_tree
    (Dir "proj" 493
       [Dir "pkg" 493 [File "m.py" 420; File "__init__.py" 420]])
    None true "dict" None
  = Returned
      (None,
       Some [("pkg"%string,
              Sub [("__init__"%string, Leaf "pkg.__init__");
                   ("m"%string, Leaf "pkg.m")])]).
Proof. reflexivity. Qed.

(** ** Divergences between the code and its description *)

Section RendererDivergences.

Local Open Scope string_scope.

(** C2: in the root [proj/] with the entries [a.py] and [b.txt], the file
    [b.txt] is not rendered but is counted as the last item, so the last
    rendered item [a.py] gets the tee connector; the same happens one level
    down, in [proj/src/]. *)
Theorem omitted_file_counts_as_last_item :
  generate_directory_tree
    (Dir "proj" 493 [File "a.py" 420; File "b.txt" 420])
    None true "markdown" None
  = Returned
      (Some (join_lines
               ["# Project Structure: proj"; "```"; "proj/";
                "├── a.py";
                "```"]),
       Some [])
  /\ generate_directory_tree
       (Dir "proj" 493
          [Dir "src" 493 [File "main.py" 420; File "notes.txt" 420]])
       None true "markdown" None
     = Returned
         (Some (join_lines
                  ["# Project Structure: proj"; "```"; "proj/";
                   "└── src/";
                   "    ├── main.py";
                   "```"]),
          Some []).
Proof. split; reflexivity. Qed.

(** C8: the text pass skips an excluded or hidden name only when it is a
    directory, while the mapping pass skips it whatever its kind; the hidden
    source file [.a.py] is rendered in the text and left out of the
    mapping. *)
Theorem mapping_pass_skips_hidden_files :
  (forall excluded hidden item,
      markdown_skips excluded hidden item
      = (is_dir item && dict_skips excluded hidden item)%bool)
  /\ markdown_skips default_excluded true (File ".a.py" 420) = false
  /\ dict_skips default_excluded true (File ".a.py" 420) = true
  /\ generate_directory_tree (Dir "proj" 493 [File ".a.py" 420])
       None true "both" None
     = Returned
         (Some (join_lines
                  ["# Project Structure: proj"; "```"; "proj/";
                   "└── .a.py";
                   "```"]),
          Some [])
  /\ generate_directory_tree (Dir "proj" 493 [File ".a.py" 420])
       None false "dict" None
     = Returned (None, Some [(".a", Leaf ".a")]).
Proof. repeat split; reflexivity. Qed.

(** C9: when only the text rendering is requested, the second component of
    the result is the empty mapping, not [None]; when only the mapping is
    requested, the first component is [None]. *)
Theorem unrequested_mapping_is_empty_not_absent
    (root_name : string) (root_mode : Z) (children : list node)
    (excluded_directories : option (list string)) (exclude_hidden : bool)
    (formatter : option (string -> string)) :
  (exists text,
      generate_directory_tree (Dir root_name root_mode children)
        excluded_directories exclude_hidden "markdown" formatter
      = Returned (Some text, Some []))
  /\ (exists mapping,
         generate_directory_tree (Dir root_name root_mode children)
           excluded_directories exclude_hidden "dict" formatter
         = Returned (None, Some mapping)).
Proof.
  split.
  - unfold generate_directory_tree. cbv zeta.
    change (str_in "markdown" ["markdown"; "both"]) with true.
    change (str_in "markdown" ["dict"; "both"]) with false.
    cbn [bind]. eexists. reflexivity.
  - unfold generate_directory_tree. cbv zeta.
    change (str_in "dict" ["markdown"; "both"]) with false.
    change (str_in "dict" ["dict"; "both"]) with true.
    cbn [bind].
    destruct (child_exists (Dir root_name root_mode children) "__init__.py");
      eexists; reflexivity.
Qed.

End RendererDivergences.

(** * Further properties *)

(** ** Permission codec: what each position of the string shows *)

Section CodecBits.

Import PermissionsManager.

Local Open Scope Z_scope.

Lemma land_single_bit (d k : Z) :
  0 <= k -> (Z.land d (2 ^ k) =? 0) = negb (Z.testbit d k).
Proof.
  intros Hk. destruct (Z.testbit d k) eqn:E; cbn [negb].
  - apply Z.eqb_neq. intros H0.
    assert (Hbit : Z.testbit (Z.land d (2 ^ k)) k = true).
    { rewrite Z.land_spec, E, Z.pow2_bits_eqb, Z.eqb_refl by assumption.
      reflexivity. }
    rewrite H0, Z.bits_0 in Hbit. discriminate.
  - apply Z.eqb_eq. apply Z.bits_inj'. intros n Hn.
    rewrite Z.land_spec, Z.pow2_bits_eqb, Z.bits_0 by assumption.
    destruct (k =? n) eqn:Ekn.
    + apply Z.eqb_eq in Ekn. subst n. rewrite E. reflexivity.
    + apply andb_false_r.
Qed.

Lemma octal_digit_to_rwx_chars (d : Z) :
  octal_digit_to_rwx d
  = String (if Z.testbit d 2 then "r" else "-")
      (String (if Z.testbit d 1 then "w" else "-")
         (String (if Z.testbit d 0 then "x" else "-") ""))%char.
Proof.
  unfold octal_digit_to_rwx.
  assert (H4 : (Z.land d 4 =? 0) = negb (Z.testbit d 2))
    by exact (land_single_bit d 2 ltac:(lia)).
  assert (H2 : (Z.land d 2 =? 0) = negb (Z.testbit d 1))
    by exact (land_single_bit d 1 ltac:(lia)).
  assert (H1 : (Z.land d 1 =? 0) = negb (Z.testbit d 0))
    by exact (land_single_bit d 0 ltac:(lia)).
  rewrite H4, H2, H1.
  destruct (Z.testbit d 2), (Z.testbit d 1), (Z.testbit d 0); reflexivity.
Qed.

Lemma triad_testbit (v shift j : Z) :
  0 <= shift -> 0 <= j < 3 ->
  Z.testbit (triad v shift) j = Z.testbit v (j + shift).
Proof.
  intros Hs Hj. unfold triad.
  rewrite Z.land_spec, Z.shiftr_spec by lia.
  change 7 with (Z.ones 3). rewrite Z.ones_spec_low by lia.
  apply andb_true_r.
Qed.

(** The nine characters of [permissions_to_rwx v], by the bits of [v]. *)
Lemma permissions_to_rwx_chars (v : Z) :
  permissions_to_rwx v
  = String (if Z.testbit v 8 then "r" else "-")
      (String (if Z.testbit v 7 then "w" else "-")
         (String (if Z.testbit v 6 then "x" else "-")
            (String (if Z.testbit v 5 then "r" else "-")
               (String (if Z.testbit v 4 then "w" else "-")
                  (String (if Z.testbit v 3 then "x" else "-")
                     (String (if Z.testbit v 2 then "r" else "-")
                        (String (if Z.testbit v 1 then "w" else "-")
                           (String (if Z.testbit v 0 then "x" else "-")
                              ""))))))))%char.
Proof.
  rewrite permissions_to_rwx_triads, !octal_digit_to_rwx_chars.
  rewrite !triad_testbit by lia. reflexivity.
Qed.

(** X1: for every integer [v], position [i] of [permissions_to_rwx v]
    (0 is the leftmost of the 9) shows bit [8 - i] of [v]: the letter of the
    position ([r], [w], [x] in turn) when the bit is set, [-] when it is
    clear. *)
Theorem permissions_to_rwx_shows_bits (v : Z) (i : nat) :
  (i < 9)%nat ->
  String.get i (permissions_to_rwx v)
  = Some (if Z.testbit v (8 - Z.of_nat i) then rwx_letter i else "-"%char).
Proof.
  intros Hi. rewrite permissions_to_rwx_chars.
  do 9 (destruct i as [|i]; [reflexivity|]). lia.
Qed.

Lemma permissions_to_rwx_shows_bits_witness :
  String.get 1 (permissions_to_rwx 420)
  = Some (if Z.testbit 420 (8 - Z.of_nat 1) then rwx_letter 1 else "-"%char).
Proof. apply (permissions_to_rwx_shows_bits 420 1). lia. Defined.

Lemma flag_char_inj (a b : bool) (c : ascii) :
  c <> "-"%char ->
  (if a then c else "-"%char) = (if b then c else "-"%char) -> a = b.
Proof. intros Hc. destruct a, b; congruence. Qed.

Lemma low_bits_mod (v w : Z) :
  (forall k, 0 <= k < 9 -> Z.testbit v k = Z.testbit w k) ->
  v mod 512 = w mod 512.
Proof.
  intros Hbits. change 512 with (2 ^ 9). apply Z.bits_inj'. intros n Hn.
  rewrite !Z.testbit_mod_pow2 by lia.
  destruct (n <? 9) eqn:E; [|reflexivity].
  apply Z.ltb_lt in E. cbn [andb]. apply Hbits. lia.
Qed.

(** X2: two integers have the same symbolic string exactly when they agree
    on the low 9 bits; on [0, 0o777] the conversion is injective. *)
Theorem permissions_to_rwx_same_string (v w : Z) :
  permissions_to_rwx v = permissions_to_rwx w <-> v mod 512 = w mod 512.
Proof.
  split.
  - rewrite !permissions_to_rwx_chars. intros H.
    injection H as H8 H7 H6 H5 H4 H3 H2 H1 H0.
    apply flag_char_inj in H8, H7, H6, H5, H4, H3, H2, H1, H0;
      try discriminate.
    apply low_bits_mod. intros k Hk.
    assert (Hcases : k = 0 \/ k = 1 \/ k = 2 \/ k = 3 \/ k = 4 \/ k = 5
                     \/ k = 6 \/ k = 7 \/ k = 8) by lia.
    destruct Hcases as [->|[->|[->|[->|[->|[->|[->|[->| ->]]]]]]]];
      assumption.
  - intros H.
    rewrite (permissions_to_rwx_triads v), (permissions_to_rwx_triads w).
    rewrite <- (triad_mod v 6), <- (triad_mod v 3), <- (triad_mod v 0) by lia.
    rewrite <- (triad_mod w 6), <- (triad_mod w 3), <- (triad_mod w 0) by lia.
    rewrite H. reflexivity.
Qed.

End CodecBits.

(** ** Permission auditor: outcomes *)

Section AuditorOutcomes.

Variable os_fails : syscall -> bool.
Variable link_mode : path -> option Z.
Variable isdir_refused : path -> bool.
Variable request_permissions : Z.
Variable resolve : bool.

Local Notation "'audit_node'" :=
  (check_and_correct os_fails link_mode request_permissions resolve).
Local Notation "'walk'" :=
  (traverse os_fails link_mode isdir_refused request_permissions resolve).
Local Notation "'walk_children'" := (traverse_child_dirs isdir_refused walk).
Local Notation "'audit'" :=
  (check_permissions os_fails link_mode isdir_refused request_permissions
     resolve).

Lemma land_perm_mask_range (mode : Z) : 0 <= Z.land mode perm_mask <= 511.
Proof.
  unfold perm_mask. change 511 with (Z.ones 9) at 1 2.
  rewrite Z.land_ones by lia.
  pose proof (Z.mod_pos_bound mode (2 ^ 9) ltac:(lia)). lia.
Qed.

Lemma land_perm_mask_small (perms : Z) :
  0 <= perms <= 511 -> Z.land perms perm_mask = perms.
Proof.
  intros H. unfold perm_mask. change 511 with (Z.ones 9).
  rewrite Z.land_ones by lia. apply Z.mod_small. lia.
Qed.

Lemma chmod_mode_perm (mode perms : Z) :
  Z.land (chmod_mode mode perms) perm_mask = Z.land perms perm_mask.
Proof.
  unfold chmod_mode, chmod_mask, perm_mask.
  change 4095 with (Z.ones 12). change 511 with (Z.ones 9).
  apply Z.bits_inj'. intros n Hn.
  rewrite !Z.land_spec, Z.lor_spec, Z.land_spec, Z.lnot_spec by assumption.
  rewrite !Z.land_spec, !Z.testbit_ones_nonneg by lia.
  destruct (n <? 9) eqn:E9; [|now rewrite !andb_false_r].
  apply Z.ltb_lt in E9.
  assert (E12 : (n <? 12) = true) by (apply Z.ltb_lt; lia).
  rewrite E12. cbn [negb]. rewrite !andb_true_r, andb_false_r. reflexivity.
Qed.

Lemma c_int_small (perms : Z) : 0 <= perms <= 511 -> c_int perms = true.
Proof.
  intros H. unfold c_int. apply andb_true_intro.
  split; apply Z.leb_le; lia.
Qed.

(** When [check_and_correct] returns on a path whose own mode it read, the
    node carries the low 9 bits of the request. *)
Lemma check_and_correct_returned (p : path) (mode : Z) :
  fst (fst (audit_node p mode)) = Returned tt ->
  0 <= request_permissions <= 511 ->
  resolve = true \/ link_mode p = None ->
  Z.land (snd (fst (audit_node p mode))) perm_mask = request_permissions.
Proof.
  intros Hret Hr Hlinks. revert Hret. unfold check_and_correct.
  rewrite (stat_mode_followed link_mode resolve p mode Hlinks).
  destruct (os_fails (Stat p resolve)); [discriminate|].
  destruct (Z.land mode perm_mask =? request_permissions) eqn:E.
  - intros _. now apply Z.eqb_eq.
  - destruct (negb (c_int request_permissions)); [discriminate|].
    destruct (os_fails (Chmod p request_permissions)); [discriminate|].
    intros _. cbn [fst snd].
    rewrite chmod_mode_perm. now apply land_perm_mask_small.
Qed.

Lemma check_and_correct_no_failure (p : path) (mode : Z) :
  os_fails (Stat p resolve) = false ->
  os_fails (Chmod p request_permissions) = false ->
  c_int request_permissions = true ->
  fst (fst (audit_node p mode)) = Returned tt.
Proof.
  intros Hs Hc Hint. unfold check_and_correct. rewrite Hs, Hc, Hint.
  destruct (Z.land _ perm_mask =? request_permissions); reflexivity.
Qed.

Lemma check_and_correct_out_of_range (p : path) (mode : Z) :
  ~ 0 <= request_permissions <= 511 ->
  os_fails (Stat p resolve) = false ->
  In (Chmod p request_permissions) (snd (audit_node p mode)).
Proof.
  intros Hr Hs. unfold check_and_correct. rewrite Hs.
  destruct (Z.land _ perm_mask =? request_permissions) eqn:E.
  - apply Z.eqb_eq in E.
    pose proof (land_perm_mask_range (stat_mode link_mode resolve p mode)).
    lia.
  - destruct (negb (c_int request_permissions));
      [|destruct (os_fails (Chmod p request_permissions))]; cbn; auto.
Qed.

(** What [check_and_correct] raises: a [PermissionError], or the
    [OverflowError] of [os.chmod] for a request outside a C [int]. *)
Lemma check_and_correct_raised (p : path) (mode : Z) (e : exn) :
  fst (fst (audit_node p mode)) = Raised e ->
  (exists call, e = PermissionError p (OSError call))
  \/ (e = OverflowError /\ c_int request_permissions = false).
Proof.
  unfold check_and_correct.
  destruct (os_fails (Stat p resolve)).
  - intros [= <-]. left. eexists. reflexivity.
  - destruct (Z.land _ perm_mask =? request_permissions); [discriminate|].
    destruct (c_int request_permissions); cbn [negb].
    + destruct (os_fails (Chmod p request_permissions)); [|discriminate].
      intros [= <-]. left. eexists. reflexivity.
    + intros [= <-]. now right.
Qed.

Lemma reraise_cases (p : path) (e : exn) :
  (is_os_error e = true /\ reraise p e = PermissionError p e)
  \/ (e = OverflowError /\ reraise p e = OverflowError).
Proof. destruct e; cbn; auto. Qed.

(** The outcome and the first calls of [traverse], by the result of
    [check_and_correct] on the node. *)
Lemma traverse_outcome (p : path) (target : node) :
  (forall e, run_outcome (walk p target) = Raised e ->
             (exists cause, e = PermissionError p cause) \/ e = OverflowError)
  /\ (run_outcome (walk p target) = Returned tt ->
      fst (fst (audit_node p (st_mode target))) = Returned tt
      /\ os_fails (Listdir p) = false
      /\ exists n m children,
          target = Dir n m children
          /\ fst (fst (walk_children p children)) = Returned tt
          /\ run_node (walk p target)
             = Dir n (snd (fst (audit_node p (st_mode target))))
                 (snd (fst (walk_children p children))))
  /\ (forall call, In call (snd (audit_node p (st_mode target))) ->
                   In call (run_calls (walk p target))).
Proof.
  assert (Hre : forall e0 e, Raised (reraise p e0) = @Raised unit e ->
                (exists cause, e = PermissionError p cause)
                \/ e = OverflowError).
  { intros e0 e [= <-].
    destruct (reraise_cases p e0) as [[_ ->]|[_ ->]]; [left|right]; eauto. }
  unfold run_outcome, run_node, run_calls.
  destruct target as [n m | n m children]; cbn [traverse st_mode];
    destruct (check_and_correct _ _ _ _ p m) as [[r mode'] calls];
    destruct r as [[]|e0]; cbn [fst snd].
  - destruct (os_fails (Listdir p)); cbn [fst snd];
      (split; [intros e [= <-]; left; eexists; reflexivity|]);
      (split; [discriminate|]); intros call Hin; apply in_or_app; now left.
  - split; [exact (Hre e0)|].
    split; [discriminate | auto].
  - destruct (os_fails (Listdir p)) eqn:Elist; cbn [fst snd].
    + split; [intros e [= <-]; left; eexists; reflexivity|].
      split; [discriminate|]. intros call Hin. apply in_or_app. now left.
    + destruct (traverse_child_dirs _ _ p children) as [[r' children'] calls']
        eqn:Eloop.
      cbn [fst snd]. destruct r' as [[]|e'].
      * split; [discriminate|]. split.
        -- intros _. split; [reflexivity|]. split; [reflexivity|].
           exists n, m, children. rewrite Eloop. repeat split; reflexivity.
        -- intros call Hin. apply in_or_app. now left.
      * split; [exact (Hre e')|].
        split; [discriminate|]. intros call Hin. apply in_or_app. now left.
  - split; [exact (Hre e0)|].
    split; [discriminate | auto].
Qed.

(** An [OverflowError] comes from a request outside a C [int]. *)
Lemma traverse_child_dirs_overflow (p : path) (children : list node) :
  Forall (fun c => forall q,
              run_outcome (walk q c) = Raised OverflowError ->
              c_int request_permissions = false) children ->
  fst (fst (walk_children p children)) = Raised OverflowError ->
  c_int request_permissions = false.
Proof.
  induction 1 as [|child rest Hchild Hrest IH]; cbn [traverse_child_dirs].
  - discriminate.
  - destruct (isdir isdir_refused p child).
    + specialize (Hchild (p ++ [name child])). unfold run_outcome in Hchild.
      destruct (walk (p ++ [name child]) child) as [[r child'] calls].
      cbn [fst snd] in *. destruct r as [u|e].
      * destruct (walk_children p rest) as [[r' rest'] calls'].
        exact IH.
      * cbn [fst]. intros [= ->]. now apply Hchild.
    + destruct (walk_children p rest) as [[r' rest'] calls'].
      exact IH.
Qed.

Lemma traverse_overflow (target : node) (q : path) :
  run_outcome (walk q target) = Raised OverflowError ->
  c_int request_permissions = false.
Proof.
  revert q.
  assert (Hre : forall p e0, Raised (reraise p e0) = @Raised unit OverflowError ->
                e0 = OverflowError).
  { intros p e0 [= H].
    destruct (reraise_cases p e0) as [[_ E]|[E _]]; [|exact E].
    rewrite E in H. discriminate. }
  assert (Hnode : forall p m e0,
             fst (fst (audit_node p m)) = Raised e0 -> e0 = OverflowError ->
             c_int request_permissions = false).
  { intros p m e0 He ->.
    destruct (check_and_correct_raised p m _ He) as [[call E]|[_ E]];
      [discriminate | exact E]. }
  induction target as [n m | n m children IH] using node_tree_ind;
    intros q; unfold run_outcome; cbn [traverse st_mode];
    pose proof (Hnode q m) as Hhere;
    destruct (check_and_correct _ _ _ _ q m) as [[r mode'] calls];
    destruct r as [[]|e0]; cbn [fst snd] in *.
  - destruct (os_fails (Listdir q)); discriminate.
  - intros H. apply (Hhere e0 eq_refl). exact (Hre q e0 H).
  - destruct (os_fails (Listdir q)); [discriminate|].
    pose proof (traverse_child_dirs_overflow q children IH) as Hloop.
    destruct (traverse_child_dirs _ _ q children) as [[r' children'] calls'].
    cbn [fst snd] in *. destruct r' as [[]|e']; [discriminate|].
    intros H. apply Hloop. f_equal. exact (Hre q e' H).
  - intros H. apply (Hhere e0 eq_refl). exact (Hre q e0 H).
Qed.

Lemma traverse_child_dirs_returned_carry (p : path) (children : list node) :
  (forall q, isdir_refused q = false) ->
  Forall (fun c => forall q,
              run_outcome (walk q c) = Returned tt ->
              dirs_carry request_permissions (run_node (walk q c)) = true)
    children ->
  fst (fst (walk_children p children)) = Returned tt ->
  forallb (fun c => if is_dir c then dirs_carry request_permissions c else true)
    (snd (fst (walk_children p children))) = true.
Proof.
  intros Htests.
  induction 1 as [|child rest Hchild Hrest IH]; cbn [traverse_child_dirs].
  - reflexivity.
  - unfold isdir. rewrite Htests, andb_true_r.
    destruct (is_dir child) eqn:Hdir.
    + specialize (Hchild (p ++ [name child])).
      destruct (traverse_keeps_name os_fails link_mode isdir_refused
                  request_permissions resolve
                  (p ++ [name child]) child) as [_ Hkind].
      unfold run_outcome, run_node in *.
      destruct (walk (p ++ [name child]) child) as [[r child'] calls].
      cbn [fst snd] in *. destruct r as [[]|e]; [|discriminate].
      destruct (walk_children p rest) as [[r' rest'] calls'].
      cbn [fst snd forallb] in *. intros Hr.
      rewrite Hkind, Hdir, (Hchild eq_refl), (IH Hr). reflexivity.
    + destruct (walk_children p rest) as [[r' rest'] calls'].
      cbn [fst snd forallb] in *. intros Hr.
      rewrite Hdir, (IH Hr). reflexivity.
Qed.

Lemma traverse_returned_carry (target : node) (q : path) :
  0 <= request_permissions <= 511 ->
  resolve = true \/ (forall p, link_mode p = None) ->
  (forall p, isdir_refused p = false) ->
  run_outcome (walk q target) = Returned tt ->
  dirs_carry request_permissions (run_node (walk q target)) = true.
Proof.
  intros Hrange Hlinks Htests. revert q.
  induction target as [n m | n m children IH] using node_tree_ind;
    intros q Hret.
  - destruct (traverse_outcome q (File n m)) as (_ & Hparts & _).
    destruct (Hparts Hret) as (_ & _ & n' & m' & cs & Heq & _). discriminate.
  - destruct (traverse_outcome q (Dir n m children)) as (_ & Hparts & _).
    destruct (Hparts Hret) as (Hnode & _ & n' & m' & cs & Heq & Hloop & Hrun).
    injection Heq as <- <- <-. rewrite Hrun. cbn [dirs_carry st_mode].
    cbn [st_mode] in Hnode.
    rewrite (check_and_correct_returned q m Hnode Hrange), Z.eqb_refl
      by (destruct Hlinks; auto).
    cbn [andb]. now apply traverse_child_dirs_returned_carry.
Qed.

(** After an audit that returned, a second one on the same path finds every
    directory that it visits as the first one left it. *)
Lemma traverse_child_dirs_settled (p : path) (children : list node) :
  Forall (fun c => forall q,
              run_outcome (walk q c) = Returned tt ->
              run_node (walk q (run_node (walk q c))) = run_node (walk q c)
              /\ filter is_chmod (run_calls (walk q (run_node (walk q c))))
                 = []) children ->
  fst (fst (walk_children p children)) = Returned tt ->
  snd (fst (walk_children p (snd (fst (walk_children p children)))))
  = snd (fst (walk_children p children))
  /\ filter is_chmod
       (snd (walk_children p (snd (fst (walk_children p children))))) = [].
Proof.
  induction 1 as [|child rest Hchild Hrest IH]; cbn [traverse_child_dirs].
  - split; reflexivity.
  - destruct (isdir isdir_refused p child) eqn:Htest.
    + specialize (Hchild (p ++ [name child])).
      destruct (traverse_keeps_name os_fails link_mode isdir_refused
                  request_permissions resolve
                  (p ++ [name child]) child) as [Hname Hkind].
      unfold run_outcome, run_node, run_calls in *.
      destruct (walk (p ++ [name child]) child) as [[r child'] calls].
      cbn [fst snd] in *. destruct r as [[]|e]; [|discriminate].
      destruct (Hchild eq_refl) as [Hnode Hcalls].
      destruct (walk_children p rest) as [[r' rest'] calls'].
      cbn [fst snd] in *. intros Hr. destruct (IH Hr) as [IHnodes IHcalls].
      cbn [traverse_child_dirs].
      rewrite (isdir_same isdir_refused p child child' Hname Hkind), Htest,
        Hname.
      destruct (walk (p ++ [name child]) child') as [[r2 child2] calls2].
      cbn [fst snd] in *. subst child2. destruct r2 as [u|e].
      * destruct (walk_children p rest') as [[r3 rest3] calls3].
        cbn [fst snd] in *. subst rest3. split; [reflexivity|].
        rewrite filter_app, Hcalls, IHcalls. reflexivity.
      * cbn [fst snd]. split; [reflexivity | exact Hcalls].
    + destruct (walk_children p rest) as [[r' rest'] calls'].
      cbn [fst snd] in *. intros Hr. destruct (IH Hr) as [IHnodes IHcalls].
      cbn [traverse_child_dirs]. rewrite Htest.
      destruct (walk_children p rest') as [[r3 rest3] calls3].
      cbn [fst snd] in *. subst rest3. split; [reflexivity | exact IHcalls].
Qed.

Lemma traverse_settled (target : node) (q : path) :
  0 <= request_permissions <= 511 ->
  resolve = true \/ (forall p, link_mode p = None) ->
  run_outcome (walk q target) = Returned tt ->
  run_node (walk q (run_node (walk q target))) = run_node (walk q target)
  /\ filter is_chmod (run_calls (walk q (run_node (walk q target)))) = [].
Proof.
  intros Hrange Hlinks. revert q.
  induction target as [n m | n m children IH] using node_tree_ind;
    intros q Hret.
  - destruct (traverse_outcome q (File n m)) as (_ & Hparts & _).
    destruct (Hparts Hret) as (_ & _ & n' & m' & cs & Heq & _). discriminate.
  - destruct (traverse_outcome q (Dir n m children)) as (_ & Hparts & _).
    destruct (Hparts Hret) as (Hnode & _ & n' & m' & cs & Heq & Hloop & Hrun).
    injection Heq as <- <- <-. cbn [st_mode] in Hnode, Hrun. rewrite Hrun.
    assert (Hmode :
              (Z.land (stat_mode link_mode resolve q
                         (snd (fst (audit_node q m)))) perm_mask
               =? request_permissions) = true).
    { rewrite stat_mode_followed by (destruct Hlinks; auto).
      apply Z.eqb_eq. apply check_and_correct_returned;
        [exact Hnode | exact Hrange | destruct Hlinks; auto]. }
    destruct (check_and_correct_carry os_fails link_mode request_permissions
                resolve q _ Hmode) as [Hkeep Hnone].
    destruct (traverse_child_dirs_settled q children IH Hloop)
      as [Hnodes Hcalls].
    destruct (traverse_dir os_fails link_mode isdir_refused
                request_permissions resolve q n
                (snd (fst (audit_node q m)))
                (snd (fst (walk_children q children))))
      as (children' & calls' & Hnode' & Hchildren & Hin & Hcalls').
    rewrite Hnode', Hkeep. split.
    + destruct Hchildren as [->| ->]; [reflexivity | now rewrite Hnodes].
    + apply filter_none. intros call Hcall Hc.
      destruct (Hin call Hcall Hc) as [Hhere|Hthere].
      * apply (filter_none_in _ _ call Hnone); [exact Hhere | exact Hc].
      * destruct Hcalls' as [->| ->]; [exact Hthere|].
        apply (filter_none_in _ _ call Hcalls); [exact Hthere | exact Hc].
Qed.

Lemma traverse_child_dirs_no_failure (p : path) (children : list node) :
  Forall (fun c => forall q,
              is_dir c = true -> run_outcome (walk q c) = Returned tt)
    children ->
  fst (fst (walk_children p children)) = Returned tt.
Proof.
  induction 1 as [|child rest Hchild Hrest IH]; cbn [traverse_child_dirs].
  - reflexivity.
  - destruct (isdir isdir_refused p child) eqn:Htest.
    + specialize (Hchild (p ++ [name child])
                    (isdir_is_dir isdir_refused p child Htest)).
      unfold run_outcome in Hchild.
      destruct (walk (p ++ [name child]) child) as [[r child'] calls].
      cbn [fst snd] in *. subst r.
      destruct (walk_children p rest) as [[r' rest'] calls'].
      exact IH.
    + destruct (walk_children p rest) as [[r' rest'] calls'].
      exact IH.
Qed.

Lemma traverse_no_failure (target : node) (q : path) :
  (forall call, os_fails call = false) ->
  c_int request_permissions = true ->
  is_dir target = true ->
  run_outcome (walk q target) = Returned tt.
Proof.
  intros Hok Hint. revert q.
  induction target as [n m | n m children IH] using node_tree_ind;
    intros q Hdir; [discriminate|].
  pose proof (check_and_correct_no_failure q m (Hok _) (Hok _) Hint) as Hnode.
  pose proof (traverse_child_dirs_no_failure q children IH) as Hloop.
  unfold run_outcome. cbn [traverse st_mode].
  destruct (check_and_correct _ _ _ _ q m) as [[r mode'] calls].
  cbn [fst] in Hnode. subst r. rewrite Hok.
  destruct (traverse_child_dirs _ _ q children) as [[r' children'] calls'].
  cbn [fst] in *. subst r'. reflexivity.
Qed.

Lemma traverse_child_dirs_shape (p : path) (children : list node) :
  Forall (fun c => forall q, shape (run_node (walk q c)) = shape c) children ->
  map shape (snd (fst (walk_children p children)))
  = map shape children.
Proof.
  induction 1 as [|child rest Hchild Hrest IH]; cbn [traverse_child_dirs].
  - reflexivity.
  - destruct (isdir isdir_refused p child).
    + specialize (Hchild (p ++ [name child])). unfold run_node in Hchild.
      destruct (walk (p ++ [name child]) child) as [[r child'] calls].
      cbn [fst snd] in *. destruct r as [u|e].
      * destruct (walk_children p rest) as [[r' rest'] calls'].
        cbn [fst snd map] in *. now rewrite Hchild, IH.
      * cbn [fst snd map]. now rewrite Hchild.
    + destruct (walk_children p rest) as [[r' rest'] calls'].
      cbn [fst snd map] in *. now rewrite IH.
Qed.

Lemma traverse_shape (target : node) (q : path) :
  shape (run_node (walk q target)) = shape target.
Proof.
  revert q.
  induction target as [n m | n m children IH] using node_tree_ind; intros q.
  - destruct (traverse_file os_fails link_mode isdir_refused
                request_permissions resolve q n m)
      as [-> _].
    reflexivity.
  - destruct (traverse_dir os_fails link_mode isdir_refused
                request_permissions resolve q n m children)
      as (children' & calls' & -> & [->| ->] & _); cbn [shape];
      [reflexivity|].
    now rewrite traverse_child_dirs_shape.
Qed.

End AuditorOutcomes.

Lemma replace_child_shape (child : string) (children : list node)
    (c new : node) :
  find_child child children = Some c -> shape new = shape c ->
  map shape (replace_child child new children) = map shape children.
Proof.
  intros Hfind Hshape.
  induction children as [|c' children IH]; cbn in *; [reflexivity|].
  destruct (name c' =? child)%string.
  - injection Hfind as ->. cbn. now rewrite Hshape.
  - cbn. now rewrite IH.
Qed.

Lemma subst_shape (p : path) (fs target new : node) :
  lookup p fs = Some target -> shape new = shape target ->
  shape (subst p new fs) = shape fs.
Proof.
  revert fs. induction p as [|c p IH]; intros fs Hl Hs; cbn in *.
  - injection Hl as ->. exact Hs.
  - destruct fs as [|n m children]; [reflexivity|].
    destruct (find_child c children) as [c'|] eqn:E; [|reflexivity].
    cbn [shape]. f_equal.
    apply (replace_child_shape c children c'); [exact E | now apply IH].
Qed.

Section AuditorContract.

Variable os_fails : syscall -> bool.
Variable link_mode : path -> option Z.
Variable isdir_refused : path -> bool.
Variable request_permissions : Z.
Variable resolve : bool.

Local Notation "'walk'" :=
  (traverse os_fails link_mode isdir_refused request_permissions resolve).
Local Notation "'audit'" :=
  (check_permissions os_fails link_mode isdir_refused request_permissions
     resolve).

(** The parts of the result of [check_permissions] on an existing target. *)
Lemma check_permissions_parts (fs : node) (p : path) (target : node) :
  lookup p fs = Some target ->
  run_outcome (audit fs p) = run_outcome (walk p target)
  /\ run_calls (audit fs p) = run_calls (walk p target)
  /\ run_node (audit fs p) = subst p (run_node (walk p target)) fs
  /\ lookup p (run_node (audit fs p)) = Some (run_node (walk p target)).
Proof.
  intros Hl. unfold check_permissions. rewrite Hl.
  destruct (traverse_keeps_name os_fails link_mode isdir_refused
              request_permissions resolve p target)
    as [Hname _].
  unfold run_outcome, run_node, run_calls in *.
  destruct (walk p target) as [[r target'] calls]. cbn [fst snd] in *.
  repeat split. now apply (lookup_subst p fs target).
Qed.


(** X4: an audit whose target is a plain file always raises, for a request
    within a C [int] a [PermissionError] that names the file, because the
    file cannot be listed; when [stat] and [chmod] succeed and the mode read
    is the file's own, the file has been given the requested permission bits
    all the same. *)
Theorem check_permissions_on_plain_file
    (fs : node) (directory_path : path) (n : string) (mode : Z) :
  lookup directory_path fs = Some (File n mode) ->
  (exists e, run_outcome (audit fs directory_path) = Raised e)
  /\ (c_int request_permissions = true ->
      exists cause,
        run_outcome (audit fs directory_path)
        = Raised (PermissionError directory_path cause))
  /\ (os_fails (Stat directory_path resolve) = false ->
      os_fails (Chmod directory_path request_permissions) = false ->
      0 <= request_permissions <= 511 ->
      resolve = true \/ link_mode directory_path = None ->
      get_file_permissions (run_node (audit fs directory_path)) directory_path
      = Ok request_permissions).
Proof.
  intros Hl.
  destruct (check_permissions_parts fs directory_path _ Hl)
    as (Hout & _ & _ & Hlook).
  destruct (traverse_file os_fails link_mode isdir_refused
              request_permissions resolve
              directory_path n mode) as [Hnode _].
  assert (Hraised : exists e,
             run_outcome (walk directory_path (File n mode)) = Raised e).
  { destruct (run_outcome (walk directory_path (File n mode)))
      as [[]|e] eqn:E; [|now exists e].
    destruct (traverse_outcome os_fails link_mode isdir_refused
                request_permissions resolve
                directory_path (File n mode)) as (_ & Hparts & _).
    destruct (Hparts E) as (_ & _ & n' & m' & cs & Heq & _). discriminate. }
  split; [now rewrite Hout|]. split.
  - intros Hint. rewrite Hout. destruct Hraised as [e E]. rewrite E.
    destruct (traverse_outcome os_fails link_mode isdir_refused
                request_permissions resolve
                directory_path (File n mode)) as (Hraise & _).
    destruct (Hraise e E) as [[cause ->]| ->]; [now exists cause|].
    pose proof (traverse_overflow os_fails link_mode isdir_refused
                  request_permissions resolve _ _ E) as Hover.
    rewrite Hint in Hover. discriminate.
  - intros Hs Hc Hrange Hlinks. unfold get_file_permissions.
    rewrite Hlook, Hnode. cbn [st_mode]. f_equal.
    apply check_and_correct_returned; [|exact Hrange | exact Hlinks].
    apply check_and_correct_no_failure; [exact Hs | exact Hc|].
    now apply c_int_small.
Qed.

(** X5: when an audit with a request in [0, 0o777] returns normally, no
    directory test was refused, and the modes read were those of the
    directories (there are no symbolic links, or links are followed), the
    target and every directory below it carry the requested permission
    bits, and [get_file_permissions] reads the request back at the target. *)
Theorem check_permissions_establishes_request
    (fs : node) (directory_path : path) (target : node) :
  0 <= request_permissions <= 511 ->
  resolve = true \/ (forall p, link_mode p = None) ->
  (forall p, isdir_refused p = false) ->
  lookup directory_path fs = Some target ->
  run_outcome (audit fs directory_path) = Returned tt ->
  (exists target',
      lookup directory_path (run_node (audit fs directory_path)) = Some target'
      /\ dirs_carry request_permissions target' = true)
  /\ get_file_permissions (run_node (audit fs directory_path)) directory_path
     = Ok request_permissions.
Proof.
  intros Hrange Hlinks Htests Hl Hret.
  destruct (check_permissions_parts fs directory_path target Hl)
    as (Hout & _ & _ & Hlook).
  rewrite Hout in Hret.
  pose proof (traverse_returned_carry os_fails link_mode isdir_refused
                request_permissions resolve
                target directory_path Hrange Hlinks Htests Hret) as Hcarry.
  split.
  - eexists. split; [exact Hlook | exact Hcarry].
  - unfold get_file_permissions. rewrite Hlook. f_equal.
    destruct (run_node (walk directory_path target));
      cbn [dirs_carry st_mode] in *;
      apply andb_prop in Hcarry as [Hmode _]; now apply Z.eqb_eq.
Qed.

(** X6: after an audit with a request in [0, 0o777] has returned normally
    on a tree without symbolic links, or with links followed, a second audit
    of the same path makes no [chmod] call and leaves the tree as the first
    audit left it. *)
Theorem check_permissions_twice (fs : node) (directory_path : path) :
  0 <= request_permissions <= 511 ->
  resolve = true \/ (forall p, link_mode p = None) ->
  run_outcome (audit fs directory_path) = Returned tt ->
  let fs' := run_node (audit fs directory_path) in
  filter is_chmod (run_calls (audit fs' directory_path)) = []
  /\ run_node (audit fs' directory_path) = fs'.
Proof.
  intros Hrange Hlinks Hret fs'. subst fs'.
  destruct (lookup directory_path fs) as [target|] eqn:Hl.
  - destruct (check_permissions_parts fs directory_path target Hl)
      as (Hout & _ & _ & Hlook).
    rewrite Hout in Hret.
    destruct (traverse_settled os_fails link_mode isdir_refused
                request_permissions resolve
                target directory_path Hrange Hlinks Hret) as [Hnode Hcalls].
    destruct (check_permissions_parts _ directory_path _ Hlook)
      as (_ & -> & -> & _).
    rewrite Hnode, Hcalls.
    split; [reflexivity | now apply subst_lookup_same].
  - unfold check_permissions. rewrite Hl. cbn [run_node fst snd].
    rewrite Hl. split; reflexivity.
Qed.

(** X7: when no system call fails and the request fits a C [int], the
    audit of an existing directory returns normally. *)
Theorem check_permissions_returns
    (fs : node) (directory_path : path) (target : node) :
  (forall call, os_fails call = false) ->
  c_int request_permissions = true ->
  lookup directory_path fs = Some target ->
  is_dir target = true ->
  run_outcome (audit fs directory_path) = Returned tt.
Proof.
  intros Hok Hint Hl Hdir.
  destruct (check_permissions_parts fs directory_path target Hl) as [-> _].
  now apply traverse_no_failure.
Qed.

(** X8: a request outside [0, 0o777] (one with setuid, setgid or sticky
    bits, for instance) never compares equal to the 9 bits read from a node,
    so every audit of an existing target whose [stat] succeeds calls [chmod]
    on the target again. *)
Theorem check_permissions_request_out_of_range
    (fs : node) (directory_path : path) (target : node) :
  ~ 0 <= request_permissions <= 511 ->
  lookup directory_path fs = Some target ->
  os_fails (Stat directory_path resolve) = false ->
  In (Chmod directory_path request_permissions)
    (run_calls (audit fs directory_path)).
Proof.
  intros Hrange Hl Hstat.
  destruct (check_permissions_parts fs directory_path target Hl)
    as (_ & -> & _).
  apply traverse_outcome.
  now apply check_and_correct_out_of_range.
Qed.

(** X9: an audit changes permission bits only: the names, the kinds and the
    listings of the whole tree are the same after it, whether it returns or
    raises. *)
Theorem check_permissions_keeps_shape (fs : node) (directory_path : path) :
  shape (run_node (audit fs directory_path)) = shape fs.
Proof.
  destruct (lookup directory_path fs) as [target|] eqn:Hl.
  - destruct (check_permissions_parts fs directory_path target Hl)
      as (_ & _ & -> & _).
    apply (subst_shape directory_path fs target); [exact Hl|].
    apply traverse_shape.
  - unfold check_permissions. rewrite Hl. reflexivity.
Qed.

End AuditorContract.


Lemma check_permissions_on_plain_file_witness :
  let fs := Dir "root" 16877
              [Dir "a" 16832 [File "f" 33188; Dir "b" 16877 []];
               File "g" 33152] in
  let audit :=
    check_permissions (fun _ => false) (fun _ => None) (fun _ => false) 493
      false fs ["g"%string] in
  (exists e, run_outcome audit = Raised e)
  /\ (exists cause,
         run_outcome audit = Raised (PermissionError ["g"%string] cause))
  /\ get_file_permissions (run_node audit) ["g"%string] = Ok 493.
Proof.
  intros fs audit.
  destruct (check_permissions_on_plain_file (fun _ => false) (fun _ => None)
              (fun _ => false) 493 false fs
              ["g"%string] "g" 33152 eq_refl) as (Hraise & Hperm & Hmode).
  split; [exact Hraise|]. split.
  - apply Hperm. reflexivity.
  - apply Hmode; [reflexivity | reflexivity | lia | now right].
Defined.

Lemma check_permissions_establishes_request_witness :
  let fs := Dir "root" 16877
              [Dir "a" 16832 [File "f" 33188; Dir "b" 16877 []];
               File "g" 33152] in
  let fs' := run_node (check_permissions (fun _ => false) (fun _ => None)
                         (fun _ => false) 493 false fs ["a"%string]) in
  (exists target',
      lookup ["a"%string] fs' = Some target'
      /\ dirs_carry 493 target' = true)
  /\ get_file_permissions fs' ["a"%string] = Ok 493.
Proof.
  intros fs fs'.
  apply (check_permissions_establishes_request (fun _ => false)
           (fun _ => None) (fun _ => false) 493 false fs
           ["a"%string] (Dir "a" 16832 [File "f" 33188; Dir "b" 16877 []]));
    [lia | now right | reflexivity | reflexivity | reflexivity].
Defined.

(** The second audit after a first one in which the test of [root/a/b] was
    refused, so that [b] was not visited. *)
Lemma check_permissions_twice_witness :
  let fs := Dir "root" 16877
              [Dir "a" 16832 [File "f" 33188; Dir "b" 16832 []];
               File "g" 33152] in
  let isdir_refused := fun p : path =>
                         match p with
                         | [_; _] => true
                         | _ => false
                         end in
  let fs' := run_node (check_permissions (fun _ => false) (fun _ => None)
                         isdir_refused 493 false fs []) in
  filter is_chmod
    (run_calls (check_permissions (fun _ => false) (fun _ => None)
                  isdir_refused 493 false fs' []))
  = []
  /\ run_node (check_permissions (fun _ => false) (fun _ => None)
                 isdir_refused 493 false fs' []) = fs'.
Proof.
  intros fs isdir_refused.
  apply (check_permissions_twice (fun _ => false) (fun _ => None)
           isdir_refused 493 false fs []);
    [lia | now right | reflexivity].
Defined.

Lemma check_permissions_returns_witness :
  run_outcome
    (check_permissions (fun _ => false) (fun _ => None) (fun _ => false) 493
       false
       (Dir "root" 16877
          [Dir "a" 16832 [File "f" 33188; Dir "b" 16877 []];
           File "g" 33152])
       ["a"%string])
  = Returned tt.
Proof.
  apply (check_permissions_returns (fun _ => false) (fun _ => None)
           (fun _ => false) 493 false _ ["a"%string]
           (Dir "a" 16832 [File "f" 33188; Dir "b" 16877 []]));
    [reflexivity | reflexivity | reflexivity | reflexivity].
Defined.

(** The request 0o1755 on a directory whose mode is already 0o1755. *)
Lemma check_permissions_request_out_of_range_witness :
  In (Chmod [] 1005)
    (run_calls
       (check_permissions (fun _ => false) (fun _ => None) (fun _ => false)
          1005 false (Dir "root" 17389 []) [])).
Proof.
  apply (check_permissions_request_out_of_range (fun _ => false)
           (fun _ => None) (fun _ => false) 1005 false
           (Dir "root" 17389 []) [] (Dir "root" 17389 []));
    [lia | reflexivity | reflexivity].
Defined.

(** ** Reading permission bits *)


(** ** Listing files *)

Section SuffixFacts.

Local Open Scope nat_scope.
Local Open Scope string_scope.

Lemma rfind_split (c : ascii) (s : string) (i : nat) :
  rfind c s = Some i ->
  exists pre post,
    s = pre ++ String c post /\ String.length pre = i /\ rfind c post = None.
Proof.
  revert i. induction s as [|a s IH]; intros i; cbn; [discriminate|].
  destruct (rfind c s) as [j|] eqn:E.
  - intros [= <-]. destruct (IH j eq_refl) as (pre & post & -> & <- & Hpost).
    exists (String a pre), post. repeat split; assumption.
  - destruct (Ascii.eqb a c) eqn:Eac; [|discriminate].
    intros [= <-]. apply Ascii.eqb_eq in Eac. subst a.
    exists "", s. repeat split; assumption.
Qed.

(** A suffix is a dot followed by at least one character, none of them a
    dot. *)
Lemma suffix_shape (nm ext : string) :
  suffix nm = "." ++ ext -> ext <> "" /\ rfind "." ext = None.
Proof.
  unfold suffix. destruct (rfind "." nm) as [i|] eqn:E; [|discriminate].
  destruct ((0 <? i)%nat && (i <? String.length nm - 1)%nat)%bool eqn:Ec;
    [|discriminate].
  destruct (rfind_split _ _ _ E) as (pre & post & -> & <- & Hpost).
  rewrite substring_drop, string_length_app. cbn [String.length].
  replace (String.length pre + S (String.length post) - String.length pre)
    with (S (String.length post)) by lia.
  cbn [substring]. rewrite substring_whole. intros [= <-].
  split; [|exact Hpost].
  apply andb_prop in Ec as [_ Ec]. apply Nat.ltb_lt in Ec.
  rewrite string_length_app in Ec. cbn [String.length] in Ec.
  destruct post; [cbn [String.length] in Ec; intros _; lia | discriminate].
Qed.

End SuffixFacts.

Section FileListing.










(** X14: an extension that is empty or contains a dot (".txt", "tar.gz")
    matches no file: the suffix compared with it is a dot followed by
    characters that are not dots, so the listing of an existing directory is
    empty. *)
Theorem get_file_list_dotted_extension
    (fs : node) (directory : path) (ext : string) (recursive : bool)
    (n : string) (m : Z) (children : list node) :
  lookup directory fs = Some (Dir n m children) ->
  ext = ""%string \/ rfind "." ext <> None ->
  get_file_list fs directory (Some ext) recursive = Ok [].
Proof.
  intros Hl Hext. unfold get_file_list. rewrite Hl. f_equal.
  match goal with
  | |- map fst (filter ?f ?l) = [] =>
      rewrite (filter_none f l); [reflexivity|]
  end.
  intros entry _ Htest. apply andb_prop in Htest as [_ Htest].
  cbn [extension_matches] in Htest. apply String.eqb_eq in Htest.
  destruct (suffix_shape _ _ Htest) as [Hne Hdot].
  destruct Hext as [->|Hext]; [now apply Hne | now apply Hext].
Qed.

Lemma get_file_list_dotted_extension_witness :
  get_file_list
    (Dir "root" 16877 [File "f.txt" 33188; File "x.tar.gz" 33188])
    [] (Some ".txt"%string) true
  = Ok [].
Proof.
  apply (get_file_list_dotted_extension _ [] ".txt" true "root" 16877
           [File "f.txt" 33188; File "x.tar.gz" 33188]).
  - reflexivity.
  - right. discriminate.
Defined.

End FileListing.

(** ** Directory tree renderer: modes, formatter and the shape of the
    mapping *)

Section RendererModes.

Local Open Scope string_scope.

Variable directory : node.
Variable excluded_directories : option (list string).
Variable exclude_hidden : bool.

(** X15: an [output_format] other than "markdown", "dict" and "both" is
    not rejected: the function returns no text and the empty mapping
    without looking at the directory, even when the path is not a
    directory. *)
Theorem generate_directory_tree_other_format
    (output_format : string) (formatter : option (string -> string)) :
  output_format <> "markdown" -> output_format <> "dict" ->
  output_format <> "both" ->
  generate_directory_tree directory excluded_directories exclude_hidden
    output_format formatter
  = Returned (None, Some []).
Proof.
  intros Hm Hd Hb. apply String.eqb_neq in Hm, Hd, Hb.
  unfold generate_directory_tree, str_in. cbn [existsb].
  rewrite Hm, Hd, Hb. reflexivity.
Qed.

(** X16: the formatter is applied to the assembled text and to nothing
    else: the result with a formatter [f] is the result without one, with
    [f] applied to the text when there is one; the mapping and a raised
    exception are the same. *)
Theorem generate_directory_tree_formatter
    (output_format : string) (f : string -> string) :
  generate_directory_tree directory excluded_directories exclude_hidden
    output_format (Some f)
  = match generate_directory_tree directory excluded_directories
            exclude_hidden output_format None with
    | Returned (text, mapping) => Returned (option_map f text, mapping)
    | Raised e => Raised e
    end.
Proof.
  unfold generate_directory_tree. cbv zeta.
  destruct (str_in output_format ["markdown"; "both"]),
    (str_in output_format ["dict"; "both"]), directory as [n m | n m children];
    cbn [bind]; try reflexivity;
    destruct (child_exists _ _); reflexivity.
Qed.

End RendererModes.

Lemma generate_directory_tree_other_format_witness :
  generate_directory_tree (File "notes.txt" 33188) None true "text" None
  = Returned (None, Some []).
Proof.
  apply (generate_directory_tree_other_format (File "notes.txt" 33188) None
           true "text" None); discriminate.
Defined.

(** X17: a path that is not a directory makes every recognised mode raise
    [NotADirectoryError]. *)
Theorem generate_directory_tree_on_plain_file
    (n : string) (m : Z) (excluded_directories : option (list string))
    (exclude_hidden : bool) (output_format : string)
    (formatter : option (string -> string)) :
  output_format = "markdown"%string \/ output_format = "dict"%string
  \/ output_format = "both"%string ->
  generate_directory_tree (File n m) excluded_directories exclude_hidden
    output_format formatter
  = Raised NotADirectoryError.
Proof. intros [->|[->| ->]]; reflexivity. Qed.

Lemma generate_directory_tree_on_plain_file_witness :
  generate_directory_tree (File "notes.txt" 33188) None true "dict" None
  = Raised NotADirectoryError.
Proof.
  apply (generate_directory_tree_on_plain_file "notes.txt" 33188 None true
           "dict" None).
  right. left. reflexivity.
Defined.

(** X18: for a directory, the mode "both" returns the text of the mode
    "markdown" together with the mapping of the mode "dict". *)
Theorem generate_directory_tree_both
    (n : string) (m : Z) (children : list node)
    (excluded_directories : option (list string)) (exclude_hidden : bool)
    (formatter : option (string -> string)) :
  exists text mapping,
    generate_directory_tree (Dir n m children) excluded_directories
      exclude_hidden "markdown" formatter
    = Returned (Some text, Some [])
    /\ generate_directory_tree (Dir n m children) excluded_directories
         exclude_hidden "dict" formatter
       = Returned (None, Some mapping)
    /\ generate_directory_tree (Dir n m children) excluded_directories
         exclude_hidden "both" formatter
       = Returned (Some text, Some mapping).
Proof.
  unfold generate_directory_tree. cbv zeta.
  change (str_in "markdown" ["markdown"; "both"]) with true.
  change (str_in "markdown" ["dict"; "both"]) with false.
  change (str_in "dict" ["markdown"; "both"]) with false.
  change (str_in "dict" ["dict"; "both"]) with true.
  change (str_in "both" ["markdown"; "both"]) with true.
  change (str_in "both" ["dict"; "both"]) with true.
  cbn [bind].
  destruct (child_exists (Dir n m children) "__init__.py");
    eexists; eexists; repeat split; reflexivity.
Qed.

Section MappingInvariant.

Local Open Scope string_scope.

Variable excluded_directories : list string.
Variable exclude_hidden : bool.

Local Notation "'build'" :=
  (_build_dict_structure excluded_directories exclude_hidden).

Lemma string_append_empty (s : string) : s ++ "" = s.
Proof. induction s as [|a s IH]; cbn; [reflexivity | now rewrite IH]. Qed.

Lemma fold_left_invariant {A B : Type} (f : A -> B -> A) (I : A -> Prop)
    (l : list B) (a : A) :
  (forall b, In b l -> forall a', I a' -> I (f a' b)) ->
  I a -> I (fold_left f l a).
Proof.
  revert a. induction l as [|b l IH]; intros a Hstep Ha; cbn; [exact Ha|].
  apply IH.
  - intros b' Hb'. apply Hstep. now right.
  - apply Hstep; [now left | exact Ha].
Qed.

Lemma dict_set_fits (p k : string) (v : value) (d : dict) :
  dict_fits p d -> leaves_fit p k v -> dict_fits p (dict_set d k v).
Proof.
  unfold dict_fits. intros Hd Hv.
  induction d as [|[k' v'] d IH]; cbn [dict_set].
  - cbn. auto.
  - cbn [leaves_fit fold_right fst snd] in Hd. destruct Hd as [Hhead Htail].
    destruct (k' =? k).
    + cbn [leaves_fit fold_right fst snd]. split; assumption.
    + cbn [leaves_fit fold_right fst snd]. split; [exact Hhead|].
      exact (IH Htail).
Qed.

Lemma dict_item_fits (p r : string) (d : dict) (c : node) :
  (forall d' p' r', dict_fits p' d' -> dict_fits p' (build c d' (p' ++ r'))) ->
  dict_fits p d ->
  dict_fits p
    (dict_item excluded_directories exclude_hidden (p ++ r) d (c, build c)).
Proof.
  intros Hc Hd. unfold dict_item.
  destruct (dict_skips _ _ c); [exact Hd|].
  destruct (is_dir c).
  - assert (Hpath : (p ++ r) ++ name c ++ "." = p ++ (r ++ name c ++ "."))
      by apply string_append_assoc.
    destruct (child_exists c "__init__.py").
    + apply dict_set_fits; [exact Hd|].
      assert (Hnested : dict_fits p (build c [] ((p ++ r) ++ name c ++ "."))).
      { rewrite Hpath. apply Hc. exact I. }
      destruct (p ++ r =? "") eqn:E.
      * apply String.eqb_eq in E. rewrite E in Hnested. exact Hnested.
      * exact Hnested.
    + rewrite Hpath. now apply Hc.
  - destruct (suffix (name c) =? ".py"); [|exact Hd].
    apply dict_set_fits; [exact Hd|].
    exists r. apply string_append_assoc.
Qed.

Lemma build_fits (path_ : node) (current_dict : dict) (p r : string) :
  dict_fits p current_dict ->
  dict_fits p (build path_ current_dict (p ++ r)).
Proof.
  revert current_dict p r.
  induction path_ as [n m | n m children IH] using node_tree_ind;
    intros d p r Hd; cbn [_build_dict_structure]; [exact Hd|].
  apply fold_left_invariant; [|exact Hd].
  intros entry Hentry d' Hd'.
  apply sorted_in, in_map_iff in Hentry as (c & <- & Hc).
  rewrite Forall_forall in IH.
  apply dict_item_fits; [|exact Hd'].
  intros d2 p2 r2. apply (IH c Hc).
Qed.

(** X19: [_build_dict_structure] keeps every dotted path of the mapping in
    step with its key: if all paths of [current_dict] start with a prefix
    [p] and end with the key they are stored under, then so do all paths of
    the mapping that a call with a module prefix extending [p] leaves, at
    every depth of nesting. *)
Theorem build_dict_structure_paths_fit
    (path_ : node) (current_dict : dict) (p r : string) :
  dict_fits p current_dict ->
  dict_fits p (build path_ current_dict (p ++ r)).
Proof. apply build_fits. Qed.

End MappingInvariant.

(** X20: in every mapping that [generate_directory_tree] returns, each
    dotted path ends with the key it is stored under; when the mapping is
    requested for a root that holds the marker file, the mapping has the
    name of the root as its only key, bound to a nested mapping whose paths
    all start with that name and a dot. *)
Theorem generate_directory_tree_paths_fit
    (directory : node) (excluded_directories : option (list string))
    (exclude_hidden : bool) (output_format : string)
    (formatter : option (string -> string))
    (text : option string) (mapping : dict) :
  generate_directory_tree directory excluded_directories exclude_hidden
    output_format formatter
  = Returned (text, Some mapping) ->
  dict_fits "" mapping
  /\ (str_in output_format ["dict"%string; "both"%string] = true ->
      child_exists directory "__init__.py" = true ->
      exists nested,
        mapping = [(name directory, Sub nested)]
        /\ dict_fits (name directory ++ ".") nested).
Proof.
  unfold generate_directory_tree. cbv zeta.
  assert (Hmd : forall k : option string -> outcome (option string * option dict),
             (forall t, k t = Returned (text, Some mapping) ->
                        dict_fits "" mapping
                        /\ (str_in output_format ["dict"%string; "both"%string]
                            = true ->
                            child_exists directory "__init__.py" = true ->
                            exists nested,
                              mapping = [(name directory, Sub nested)]
                              /\ dict_fits (name directory ++ ".") nested)) ->
             forall o, bind o k = Returned (text, Some mapping) ->
                       dict_fits "" mapping
                       /\ (str_in output_format ["dict"%string; "both"%string]
                           = true ->
                           child_exists directory "__init__.py" = true ->
                           exists nested,
                             mapping = [(name directory, Sub nested)]
                             /\ dict_fits (name directory ++ ".") nested)).
  { intros k Hk [t|e]; cbn [bind]; [apply Hk | discriminate]. }
  apply Hmd. clear Hmd. intros markdown_output.
  destruct (str_in output_format ["dict"%string; "both"%string]).
  - destruct directory as [n m | n m children]; [discriminate|].
    destruct (child_exists (Dir n m children) "__init__.py"); cbn [bind].
    + intros [= <- <-]. cbn [name dict_set].
      assert (Hnested : forall p,
                 dict_fits p
                   (_build_dict_structure
                      (excluded_or_default excluded_directories) exclude_hidden
                      (Dir n m children) [] (p ++ n ++ "."))).
      { intros p. apply build_fits. exact I. }
      split.
      * change (leaves_fit "" n
                  (Sub (_build_dict_structure
                          (excluded_or_default excluded_directories)
                          exclude_hidden (Dir n m children) []
                          ("" ++ n ++ ".")))
                /\ True).
        split; [exact (Hnested ""%string) | exact I].
      * intros _ _. eexists. split; [reflexivity|].
        pose proof (build_fits (excluded_or_default excluded_directories)
                      exclude_hidden (Dir n m children) [] (n ++ ".") "" I)
          as H.
        rewrite string_append_empty in H. exact H.
    + intros [= <- <-]. split; [|discriminate].
      exact (build_fits (excluded_or_default excluded_directories)
               exclude_hidden (Dir n m children) [] "" "" I).
  - cbn [bind]. intros [= <- <-]. split; [exact I | discriminate].
Qed.

Lemma generate_directory_tree_paths_fit_witness :
  dict_fits ""
    [("proj"%string,
      Sub [("__init__"%string, Leaf "proj.__init__");
           ("pkg"%string,
            Sub [("__init__"%string, Leaf "proj.pkg.__init__");
                 ("m"%string, Leaf "proj.pkg.m")])])]
  /\ (str_in "dict" ["dict"%string; "both"%string] = true ->
      child_exists
        (Dir "proj" 493
           [Dir "pkg" 493 [File "m.py" 420; File "__init__.py" 420];
            File "__init__.py" 420])
        "__init__.py" = true ->
      exists nested,
        [("proj"%string,
          Sub [("__init__"%string, Leaf "proj.__init__");
               ("pkg"%string,
                Sub [("__init__"%string, Leaf "proj.pkg.__init__");
                     ("m"%string, Leaf "proj.pkg.m")])])]
        = [("proj"%string, Sub nested)]
        /\ dict_fits ("proj" ++ ".") nested).
Proof.
  apply (generate_directory_tree_paths_fit
           (Dir "proj" 493
              [Dir "pkg" 493 [File "m.py" 420; File "__init__.py" 420];
               File "__init__.py" 420])
           None true "dict" None None).
  reflexivity.
Defined.

Lemma build_dict_structure_paths_fit_witness :
  dict_fits "top."
    (_build_dict_structure default_excluded true
       (Dir "proj" 493
          [Dir "pkg" 493 [File "m.py" 420; File "__init__.py" 420];
           Dir "plain" 493 [File "n.py" 420]])
       [("old"%string, Leaf "top.old")] ("top." ++ "proj.")).
Proof.
  apply (build_dict_structure_paths_fit default_excluded true).
  cbn. split; [|exact I]. exists ""%string. reflexivity.
Defined.

(** ** Text pass: one line per rendered entry *)

Section TextLines.

Local Open Scope nat_scope.

Variable excluded_directories : list string.
Variable exclude_hidden : bool.

Local Notation "'tree'" :=
  (_generate_markdown_tree excluded_directories exclude_hidden).
Local Notation "'lines_of'" :=
  (rendered_lines excluded_directories exclude_hidden).
Local Notation "'skipped'" :=
  (markdown_skips excluded_directories exclude_hidden).

Lemma list_sum_step (a : nat) (l : list nat) :
  list_sum (a :: l) = a + list_sum l.
Proof. reflexivity. Qed.

Lemma list_sum_insert_sorted {A : Type} (le : A -> A -> bool) (g : A -> nat)
    (x : A) (l : list A) :
  list_sum (map g (insert_sorted le x l)) = g x + list_sum (map g l).
Proof.
  induction l as [|y l IH]; [reflexivity|].
  cbn [insert_sorted]. destruct (le x y); cbn [map].
  - now rewrite !list_sum_step.
  - rewrite !list_sum_step, IH. lia.
Qed.

Lemma list_sum_sorted {A : Type} (le : A -> A -> bool) (g : A -> nat)
    (l : list A) :
  list_sum (map g (sorted le l)) = list_sum (map g l).
Proof.
  induction l as [|x l IH]; [reflexivity|].
  change (sorted le (x :: l)) with (insert_sorted le x (sorted le l)).
  rewrite list_sum_insert_sorted, IH. reflexivity.
Qed.

Lemma list_sum_filter {A : Type} (keep : A -> bool) (g : A -> nat)
    (l : list A) :
  (forall x, In x l -> keep x = false -> g x = 0) ->
  list_sum (map g (filter keep l)) = list_sum (map g l).
Proof.
  induction l as [|x l IH]; intros Hzero; [reflexivity|].
  cbn [filter map]. destruct (keep x) eqn:E; cbn [map];
    rewrite !list_sum_step, IH by (intros y Hy; apply Hzero; now right).
  - reflexivity.
  - rewrite (Hzero x (or_introl eq_refl) E). reflexivity.
Qed.

Lemma length_flat_map_enumerate {A : Type} (f : nat * A -> list string)
    (g : A -> nat) (l : list A) (i : nat) :
  (forall j x, In x l -> List.length (f (j, x)) = g x) ->
  List.length (flat_map f (enumerate_from i l)) = list_sum (map g l).
Proof.
  revert i. induction l as [|x l IH]; intros i Hf; [reflexivity|].
  cbn [enumerate_from flat_map map].
  rewrite length_app, list_sum_step, (Hf i x (or_introl eq_refl)).
  rewrite IH; [reflexivity|]. intros j y Hy. apply Hf. now right.
Qed.

(** The lines of the loop over the items of one listing. *)
Lemma items_lines (children : list node) (next_prefix : string) :
  Forall (fun c => forall prefix is_last,
              is_dir c = true -> skipped c = false ->
              List.length (tree c prefix is_last) = lines_of c) children ->
  let items :=
    filter (fun entry => negb (skipped (fst entry)))
      (sorted (fun x y => markdown_key_le (fst x) (fst y))
         (map (fun c => (c, tree c)) children)) in
  List.length (flat_map (markdown_item next_prefix (List.length items))
                 (enumerate items))
  = list_sum (map lines_of children).
Proof.
  intros Hchildren items. rewrite Forall_forall in Hchildren.
  unfold enumerate.
  rewrite (length_flat_map_enumerate _ (fun entry => lines_of (fst entry))).
  - subst items. rewrite list_sum_filter.
    + rewrite list_sum_sorted, map_map. reflexivity.
    + intros [c w] _ Hskip. cbn [fst] in *.
      apply negb_false_iff in Hskip.
      destruct c as [n m | n m cs]; [discriminate|].
      cbn [rendered_lines]. now rewrite Hskip.
  - intros j [c w] Hin. subst items.
    apply filter_In in Hin as [Hin Hkeep]. cbn [fst] in *.
    apply negb_true_iff in Hkeep.
    apply sorted_in, in_map_iff in Hin as (c' & [= -> <-] & Hc).
    unfold markdown_item. destruct (is_dir c) eqn:Hdir.
    + now apply Hchildren.
    + destruct c as [n m | n m cs]; [|discriminate].
      cbn [name rendered_lines].
      destruct (suffix n =? ".py")%string; reflexivity.
Qed.

Lemma tree_lines (c : node) (prefix : string) (is_last : bool) :
  is_dir c = true -> skipped c = false ->
  List.length (tree c prefix is_last) = lines_of c.
Proof.
  revert prefix is_last.
  induction c as [n m | n m children IH] using node_tree_ind;
    intros prefix is_last Hdir Hskip; [discriminate|].
  cbn [_generate_markdown_tree rendered_lines]. rewrite Hskip.
  cbn [List.length]. f_equal. now apply items_lines.
Qed.

(** X21: the text rendering has its three header lines, its closing fence,
    and exactly one line for every entry that is rendered: a directory that
    is not excluded or hidden, with the entries below it, and a source
    file; nothing below a skipped directory and no other file adds a
    line. *)
Theorem markdown_lines_count (root_name : string) (children : list node) :
  List.length
    (markdown_lines excluded_directories exclude_hidden root_name children)
  = 4 + list_sum (map lines_of children).
Proof.
  unfold markdown_lines. rewrite !length_app. cbn [List.length].
  rewrite items_lines.
  - lia.
  - apply Forall_forall. intros c _ prefix is_last. apply tree_lines.
Qed.

End TextLines.

(** ** The renderer does not depend on the order of a listing *)

Section SortedListings.

Variable A : Type.
Variable le : A -> A -> bool.
Hypothesis le_total : forall x y, le x y = true \/ le y x = true.
Hypothesis le_trans :
  forall x y z, le x y = true -> le y z = true -> le x z = true.

Lemma insert_sorted_comm (x y : A) (l : list A) :
  (le x y = true -> le y x = true -> x = y) ->
  insert_sorted le x (insert_sorted le y l)
  = insert_sorted le y (insert_sorted le x l).
Proof.
  intros Hxy. induction l as [|z l IH]; cbn [insert_sorted].
  - destruct (le x y) eqn:Exy, (le y x) eqn:Eyx; try reflexivity.
    + now rewrite (Hxy eq_refl eq_refl).
    + destruct (le_total x y); congruence.
  - destruct (le y z) eqn:Eyz, (le x z) eqn:Exz; cbn [insert_sorted].
    + rewrite Exz, Eyz.
      destruct (le x y) eqn:Exy, (le y x) eqn:Eyx; try reflexivity.
      * now rewrite (Hxy eq_refl eq_refl).
      * destruct (le_total x y); congruence.
    + rewrite Exz, Eyz.
      destruct (le x y) eqn:Exy; [|reflexivity].
      rewrite (le_trans x y z Exy Eyz) in Exz. discriminate.
    + rewrite Exz, Eyz.
      destruct (le y x) eqn:Eyx; [|reflexivity].
      rewrite (le_trans y x z Eyx Exz) in Eyz. discriminate.
    + rewrite Exz, Eyz, IH. reflexivity.
Qed.

Lemma sorted_permutation (l l' : list A) :
  Permutation l l' ->
  (forall x y, In x l -> In y l -> le x y = true -> le y x = true -> x = y) ->
  sorted le l = sorted le l'.
Proof.
  induction 1 as [|x l l' Hperm IH|x y l|l l' l'' H1 IH1 H2 IH2];
    intros Hanti.
  - reflexivity.
  - change (insert_sorted le x (sorted le l)
            = insert_sorted le x (sorted le l')).
    rewrite IH; [reflexivity|].
    intros a b Ha Hb. apply Hanti; now right.
  - change (insert_sorted le y (insert_sorted le x (sorted le l))
            = insert_sorted le x (insert_sorted le y (sorted le l))).
    apply insert_sorted_comm. apply Hanti; cbn; auto.
  - rewrite IH1 by exact Hanti. apply IH2.
    intros a b Ha Hb. apply Hanti; eapply Permutation_in;
      try eassumption; now apply Permutation_sym.
Qed.

End SortedListings.

Section NameOrder.

Local Open Scope string_scope.

Lemma string_leb_cases (a b : string) :
  (a <=? b) = true <-> a = b \/ OrderedTypeEx.String_as_OT.lt a b.
Proof.
  unfold String.leb.
  pose proof (OrderedTypeEx.String_as_OT.cmp_eq a b) as Heq.
  pose proof (OrderedTypeEx.String_as_OT.cmp_lt a b) as Hlt.
  unfold OrderedTypeEx.String_as_OT.cmp in *.
  destruct (a ?= b) eqn:E; split; intros H; try reflexivity.
  - left. now apply Heq.
  - right. now apply Hlt.
  - discriminate.
  - destruct H as [H|H]; [apply Heq in H | apply Hlt in H]; discriminate.
Qed.

Lemma string_leb_trans (a b c : string) :
  (a <=? b) = true -> (b <=? c) = true -> (a <=? c) = true.
Proof.
  rewrite !string_leb_cases.
  intros [->|Hab] [->|Hbc]; auto.
  right. exact (OrderedTypeEx.String_as_OT.lt_trans _ _ _ Hab Hbc).
Qed.

Lemma markdown_key_le_total (x y : node) :
  markdown_key_le x y = true \/ markdown_key_le y x = true.
Proof.
  unfold markdown_key_le. destruct (is_file x), (is_file y); auto;
    apply String.leb_total.
Qed.

Lemma markdown_key_le_trans (x y z : node) :
  markdown_key_le x y = true -> markdown_key_le y z = true ->
  markdown_key_le x z = true.
Proof.
  unfold markdown_key_le.
  destruct (is_file x), (is_file y), (is_file z);
    try discriminate; auto; apply string_leb_trans.
Qed.

Lemma markdown_key_le_name (x y : node) :
  markdown_key_le x y = true -> markdown_key_le y x = true ->
  name x = name y.
Proof.
  unfold markdown_key_le.
  destruct (is_file x), (is_file y); try discriminate;
    apply String.leb_antisym.
Qed.

Lemma same_name_same_entry (children : list node) (x y : node) :
  NoDup (map name children) -> In x children -> In y children ->
  name x = name y -> x = y.
Proof.
  induction children as [|c children IH]; cbn; [intros _ []|].
  intros Hnodup Hx Hy Hname. inversion Hnodup as [|? ? Hnotin Hrest]; subst.
  destruct Hx as [->|Hx], Hy as [->|Hy].
  - reflexivity.
  - exfalso. apply Hnotin. rewrite Hname. now apply in_map.
  - exfalso. apply Hnotin. rewrite <- Hname. now apply in_map.
  - now apply IH.
Qed.

Lemma existsb_permutation {B : Type} (f : B -> bool) (l l' : list B) :
  Permutation l l' -> existsb f l = existsb f l'.
Proof.
  induction 1 as [|x l l' _ IH|x y l|l l' l'' _ IH1 _ IH2]; cbn.
  - reflexivity.
  - now rewrite IH.
  - destruct (f x), (f y); reflexivity.
  - now rewrite IH1.
Qed.

(** The sorted listings of the two passes, for two listings with the same
    entries. *)
Lemma sorted_entries_permutation {W : Type} (walk : node -> W)
    (le : node -> node -> bool) (children children' : list node) :
  (forall x y, le x y = true \/ le y x = true) ->
  (forall x y z, le x y = true -> le y z = true -> le x z = true) ->
  (forall x y, le x y = true -> le y x = true -> name x = name y) ->
  Permutation children children' ->
  NoDup (map name children) ->
  sorted (fun x y => le (fst x) (fst y)) (map (fun c => (c, walk c)) children)
  = sorted (fun x y => le (fst x) (fst y))
      (map (fun c => (c, walk c)) children').
Proof.
  intros Htotal Htrans Hname Hperm Hnodup.
  apply sorted_permutation.
  - intros x y. apply Htotal.
  - intros x y z. apply Htrans.
  - now apply Permutation_map.
  - intros e1 e2 He1 He2 H12 H21.
    apply in_map_iff in He1 as (c1 & <- & Hc1).
    apply in_map_iff in He2 as (c2 & <- & Hc2).
    cbn [fst] in *.
    now rewrite (same_name_same_entry children c1 c2 Hnodup Hc1 Hc2
                   (Hname _ _ H12 H21)).
Qed.

(** X22: the result does not depend on the order in which the operating
    system lists a directory.  For two listings with the same entries, all
    of different names, [_build_dict_structure], [_generate_markdown_tree]
    and [generate_directory_tree] return the same on a directory with the
    one listing and on the directory with the other. *)
Theorem renderer_independent_of_listing_order
    (n : string) (m : Z) (children children' : list node)
    (excluded_directories : option (list string)) (exclude_hidden : bool)
    (output_format : string) (formatter : option (string -> string)) :
  Permutation children children' ->
  NoDup (map name children) ->
  (forall current_dict module_prefix,
      _build_dict_structure (excluded_or_default excluded_directories)
        exclude_hidden (Dir n m children) current_dict module_prefix
      = _build_dict_structure (excluded_or_default excluded_directories)
          exclude_hidden (Dir n m children') current_dict module_prefix)
  /\ (forall prefix is_last,
         _generate_markdown_tree (excluded_or_default excluded_directories)
           exclude_hidden (Dir n m children) prefix is_last
         = _generate_markdown_tree (excluded_or_default excluded_directories)
             exclude_hidden (Dir n m children') prefix is_last)
  /\ generate_directory_tree (Dir n m children) excluded_directories
       exclude_hidden output_format formatter
     = generate_directory_tree (Dir n m children') excluded_directories
         exclude_hidden output_format formatter.
Proof.
  intros Hperm Hnodup.
  assert (Hdict :
            sorted (fun x y => path_le (fst x) (fst y))
              (map (fun c => (c, _build_dict_structure
                                   (excluded_or_default excluded_directories)
                                   exclude_hidden c)) children)
            = sorted (fun x y => path_le (fst x) (fst y))
                (map (fun c => (c, _build_dict_structure
                                     (excluded_or_default excluded_directories)
                                     exclude_hidden c)) children')).
  { apply sorted_entries_permutation; try assumption.
    - intros x y. apply String.leb_total.
    - intros x y z. apply string_leb_trans.
    - intros x y. apply String.leb_antisym. }
  assert (Htext :
            sorted (fun x y => markdown_key_le (fst x) (fst y))
              (map (fun c => (c, _generate_markdown_tree
                                   (excluded_or_default excluded_directories)
                                   exclude_hidden c)) children)
            = sorted (fun x y => markdown_key_le (fst x) (fst y))
                (map (fun c => (c, _generate_markdown_tree
                                     (excluded_or_default excluded_directories)
                                     exclude_hidden c)) children')).
  { apply sorted_entries_permutation; try assumption.
    - apply markdown_key_le_total.
    - apply markdown_key_le_trans.
    - apply markdown_key_le_name. }
  assert (Hmarker : child_exists (Dir n m children) "__init__.py"
                    = child_exists (Dir n m children') "__init__.py")
    by now apply existsb_permutation.
  split; [|split].
  - intros d p. cbn [_build_dict_structure]. now rewrite Hdict.
  - intros prefix is_last. cbn [_generate_markdown_tree name].
    now rewrite Htext.
  - unfold generate_directory_tree, markdown_lines. cbv zeta.
    rewrite <- Hmarker. cbn [_build_dict_structure name].
    rewrite <- Htext, <- Hdict. reflexivity.
Qed.

End NameOrder.

Lemma renderer_independent_of_listing_order_witness :
  generate_directory_tree
    (Dir "proj" 493 [File "b.py" 420; Dir "pkg" 493 []; File "a.py" 420])
    None true "both" None
  = generate_directory_tree
      (Dir "proj" 493 [File "a.py" 420; File "b.py" 420; Dir "pkg" 493 []])
      None true "both" None.
Proof.
  apply (renderer_independent_of_listing_order "proj" 493
           [File "b.py" 420; Dir "pkg" 493 []; File "a.py" 420]
           [File "a.py" 420; File "b.py" 420; Dir "pkg" 493 []]
           None true "both" None).
  - apply Permutation_sym.
    apply (Permutation_cons_app [File "b.py" 420; Dir "pkg" 493 []] []).
    apply Permutation_refl.
  - repeat constructor; cbn; intuition discriminate.
Defined.

(** ** Creating folders and files *)

Lemma subfolders_tree_ind (P : subfolders -> Prop)
    (HNone : P NoSubfolders)
    (HList : forall names, P (SubfolderList names))
    (HDict : forall items,
        Forall (fun item => P (snd item)) items -> P (SubfolderDict items)) :
  forall s, P s.
Proof.
  fix IH 1. intros [|names|items].
  - exact HNone.
  - apply HList.
  - apply HDict. induction items as [|item items IHitems]; constructor.
    + apply IH.
    + exact IHitems.
Qed.

Lemma for_each_invariant {A : Type} (step : A -> node -> fs_run)
    (I : node -> Prop) (xs : list A) (fs : node) :
  (forall x, In x xs -> forall fs', I fs' -> I (snd (step x fs'))) ->
  I fs -> I (snd (for_each step xs fs)).
Proof.
  revert fs. induction xs as [|x xs IH]; intros fs Hstep Hfs; cbn [for_each].
  - exact Hfs.
  - pose proof (Hstep x (or_introl eq_refl) fs Hfs) as Hx.
    destruct (step x fs) as [[[]|e] fs']; cbn [snd] in *.
    + apply IH; [|exact Hx]. intros y Hy. apply Hstep. now right.
    + exact Hx.
Qed.

Lemma same_entry_refl (entry : node) : same_entry entry entry.
Proof. repeat split. Qed.

Lemma same_entry_trans (a b c : node) :
  same_entry a b -> same_entry b c -> same_entry a c.
Proof.
  intros (H1 & H2 & H3) (H4 & H5 & H6). repeat split; congruence.
Qed.

Lemma keeps_entries_refl (fs : node) : keeps_entries fs fs.
Proof. intros q entry H. exists entry. split; [exact H | apply same_entry_refl]. Qed.

Lemma keeps_entries_trans (a b c : node) :
  keeps_entries a b -> keeps_entries b c -> keeps_entries a c.
Proof.
  intros Hab Hbc q entry H.
  destruct (Hab q entry H) as (e1 & H1 & S1).
  destruct (Hbc q e1 H1) as (e2 & H2 & S2).
  exists e2. split; [exact H2 | eapply same_entry_trans; eassumption].
Qed.

Lemma find_child_app_found (child : string) (l l' : list node) (c : node) :
  find_child child l = Some c -> find_child child (l ++ l') = Some c.
Proof.
  induction l as [|x l IH]; cbn; [discriminate|].
  destruct (name x =? child)%string; auto.
Qed.

Lemma find_child_app_missing (child : string) (l : list node) (c : node) :
  find_child child l = None -> name c = child ->
  find_child child (l ++ [c]) = Some c.
Proof.
  intros Hnone Hname. induction l as [|x l IH]; cbn in *.
  - now rewrite Hname, String.eqb_refl.
  - destruct (name x =? child)%string; [discriminate | now apply IH].
Qed.

Lemma find_replace_other (child other : string) (new : node) (l : list node) :
  other <> child -> name new = child ->
  find_child other (replace_child child new l) = find_child other l.
Proof.
  intros Hne Hname. induction l as [|x l IH]; cbn; [reflexivity|].
  destruct (name x =? child)%string eqn:E; cbn.
  - apply String.eqb_eq in E.
    assert (Hx : (name x =? other)%string = false)
      by (apply String.eqb_neq; congruence).
    assert (Hn : (name new =? other)%string = false)
      by (apply String.eqb_neq; congruence).
    now rewrite Hx, Hn.
  - destruct (name x =? other)%string; [reflexivity | exact IH].
Qed.

(** Replacing the entry [child] of a listing by one that keeps the entries
    below it keeps the entries below the directory. *)
Lemma replace_child_keeps (n : string) (m : Z) (children : list node)
    (child : string) (c c' : node) :
  find_child child children = Some c ->
  name c' = child -> keeps_entries c c' ->
  keeps_entries (Dir n m children) (Dir n m (replace_child child c' children)).
Proof.
  intros Hfind Hname Hkeep [|other q] entry; cbn [lookup].
  - intros [= <-]. eexists. split; [reflexivity | repeat split].
  - destruct (String.string_dec other child) as [->|Hne].
    + rewrite Hfind, (find_replace_child child children c c' Hfind Hname).
      apply Hkeep.
    + rewrite (find_replace_other child other c' children Hne Hname).
      destruct (find_child other children); [|discriminate].
      intros H. exists entry. split; [exact H | apply same_entry_refl].
Qed.

Lemma append_child_keeps (n : string) (m : Z) (children : list node)
    (c : node) :
  keeps_entries (Dir n m children) (Dir n m (children ++ [c])).
Proof.
  intros [|other q] entry; cbn [lookup].
  - intros [= <-]. eexists. split; [reflexivity | repeat split].
  - destruct (find_child other children) as [x|] eqn:E; [|discriminate].
    rewrite (find_child_app_found other children [c] x E).
    intros H. exists entry. split; [exact H | apply same_entry_refl].
Qed.

Section CreationFacts.

Variable mkdir_st_mode : Z -> Z.
Variable open_st_mode : Z.

Local Notation "'mkdirs'" := (mkdir_parents mkdir_st_mode).
Local Notation "'fresh'" := (fresh_dirs mkdir_st_mode).

Lemma fresh_dirs_name (mode : Z) (child : string) (p : path) :
  name (fresh mode child p) = child.
Proof. destruct p; reflexivity. Qed.

Lemma fresh_dirs_lookup (mode : Z) (child : string) (p : path) :
  exists entry,
    lookup p (fresh mode child p) = Some entry
    /\ entry = Dir (name entry) (mkdir_st_mode mode) [].
Proof.
  revert child. induction p as [|c p IH]; intros child; cbn.
  - eexists. split; reflexivity.
  - rewrite fresh_dirs_name, String.eqb_refl. apply IH.
Qed.

Lemma mkdir_parents_root (full_path : path) (mode : Z) (p : path)
    (fs fs' : node) :
  mkdirs full_path mode p fs = Ok fs' ->
  name fs' = name fs /\ st_mode fs' = st_mode fs /\ is_dir fs' = true
  /\ is_dir fs = true.
Proof.
  destruct p as [|c p], fs as [n m | n m children]; cbn; try discriminate.
  - intros [= <-]. repeat split.
  - destruct (find_child c children) as [x|].
    + destruct (mkdirs full_path mode p x); [|discriminate].
      intros [= <-]. repeat split.
    + intros [= <-]. repeat split.
Qed.

(** [mkdir] with [parents] and [exist_ok] only adds entries. *)
Lemma mkdir_parents_keeps (full_path : path) (mode : Z) (p : path)
    (fs fs' : node) :
  mkdirs full_path mode p fs = Ok fs' -> keeps_entries fs fs'.
Proof.
  revert fs fs'. induction p as [|c p IH]; intros fs fs';
    destruct fs as [n m | n m children]; cbn; try discriminate.
  - intros [= <-]. apply keeps_entries_refl.
  - destruct (find_child c children) as [x|] eqn:E.
    + destruct (mkdirs full_path mode p x) as [x'|] eqn:Ex; [|discriminate].
      intros [= <-].
      apply (replace_child_keeps n m children c x x' E).
      * destruct (mkdir_parents_root _ _ _ _ _ Ex) as [-> _].
        eapply find_child_name, E.
      * now apply IH.
    + intros [= <-]. apply append_child_keeps.
Qed.

(** ... and leaves a directory at the path. *)
Lemma mkdir_parents_makes (full_path : path) (mode : Z) (p : path)
    (fs fs' : node) :
  mkdirs full_path mode p fs = Ok fs' -> dir_at p fs'.
Proof.
  revert fs fs'. induction p as [|c p IH]; intros fs fs';
    destruct fs as [n m | n m children]; cbn; try discriminate.
  - intros [= <-]. eexists. split; reflexivity.
  - destruct (find_child c children) as [x|] eqn:E.
    + destruct (mkdirs full_path mode p x) as [x'|] eqn:Ex; [|discriminate].
      intros [= <-]. unfold dir_at. cbn [lookup].
      rewrite (find_replace_child c children x x' E).
      * apply (IH x x' Ex).
      * destruct (mkdir_parents_root _ _ _ _ _ Ex) as [-> _].
        eapply find_child_name, E.
    + intros [= <-]. unfold dir_at. cbn [lookup].
      rewrite (find_child_app_missing c children _ E (fresh_dirs_name _ _ _)).
      destruct (fresh_dirs_lookup mode c p) as (entry & Hl & Hentry).
      exists entry. split; [exact Hl|]. now rewrite Hentry.
Qed.

(** On an existing directory it does nothing, on a plain file it raises. *)
Lemma mkdir_parents_existing (full_path : path) (mode : Z) (p : path)
    (fs entry : node) :
  lookup p fs = Some entry ->
  mkdirs full_path mode p fs
  = if is_dir entry then Ok fs else Err (FileExistsError full_path).
Proof.
  revert fs. induction p as [|c p IH]; intros fs; cbn [lookup].
  - intros [= <-]. destruct fs; reflexivity.
  - destruct fs as [n m | n m children]; [discriminate|].
    destruct (find_child c children) as [x|] eqn:E; [|discriminate].
    intros Hl. cbn [mkdir_parents]. rewrite E, (IH x Hl).
    destruct (is_dir entry); [|reflexivity].
    now rewrite (replace_child_same c children x E).
Qed.

End CreationFacts.

Section FolderCreation.

Variable mkdir_st_mode : Z -> Z.

Local Notation "'mkdirs'" := (mkdir_parents mkdir_st_mode).
Local Notation "'make_one'" := (create_one mkdir_st_mode).
Local Notation "'make'" := (create_folder mkdir_st_mode).

Lemma mkdir_parents_below (full_path : path) (mode : Z) (c : string)
    (p : path) (n : string) (m : Z) (children : list node) :
  mkdirs full_path mode (c :: p) (Dir n m children)
  = match find_child c children with
    | Some x =>
        match mkdirs full_path mode p x with
        | Ok x' => Ok (Dir n m (replace_child c x' children))
        | Err e => Err e
        end
    | None => Ok (Dir n m (children ++ [fresh_dirs mkdir_st_mode mode c p]))
    end.
Proof. reflexivity. Qed.

Lemma find_child_removed (child : string) (children : list node) :
  find_child child (remove_child child children) = None.
Proof.
  unfold remove_child. induction children as [|c children IH]; cbn;
    [reflexivity|].
  destruct (name c =? child)%string eqn:E; cbn; [exact IH|].
  now rewrite E.
Qed.

Lemma rmtree_root (p : path) (fs : node) :
  name (rmtree p fs) = name fs /\ is_dir (rmtree p fs) = is_dir fs.
Proof.
  destruct p as [|c [|c' p]], fs as [n m | n m children]; cbn;
    try (split; reflexivity);
    destruct (find_child c children); split; reflexivity.
Qed.

Lemma keeps_entries_dir_at (fs fs' : node) (p : path) :
  keeps_entries fs fs' -> dir_at p fs -> dir_at p fs'.
Proof.
  intros Hkeep (entry & Hl & Hdir).
  destruct (Hkeep p entry Hl) as (entry' & Hl' & _ & _ & Hkind).
  exists entry'. split; [exact Hl' | congruence].
Qed.

Lemma rmtree_below (c : string) (p : path) (n : string) (m : Z)
    (children : list node) :
  p <> [] ->
  rmtree (c :: p) (Dir n m children)
  = match find_child c children with
    | Some x => Dir n m (replace_child c (rmtree p x) children)
    | None => Dir n m children
    end.
Proof. destruct p; [contradiction | reflexivity]. Qed.

(** Removing a tree keeps the directories above it. *)
Lemma rmtree_keeps_dir (dn r : path) (fs : node) :
  r <> [] -> dir_at dn fs -> dir_at dn (rmtree (dn ++ r) fs).
Proof.
  intros Hr. revert fs. induction dn as [|c dn IH]; intros fs.
  - intros (entry & [= <-] & Hdir). exists (rmtree r fs).
    split; [reflexivity|]. destruct (rmtree_root r fs) as [_ ->]. exact Hdir.
  - intros (entry & Hl & Hdir). cbn [lookup] in Hl.
    destruct fs as [n m | n m children]; [discriminate|].
    destruct (find_child c children) as [x|] eqn:E; [|discriminate].
    assert (Hrest : dn ++ r <> []).
    { intros H. apply app_eq_nil in H as [_ H]. now apply Hr. }
    cbn [app]. rewrite (rmtree_below c (dn ++ r) n m children Hrest), E.
    unfold dir_at. cbn [lookup].
    rewrite (find_replace_child c children x _ E).
    + apply IH. now exists entry.
    + destruct (rmtree_root (dn ++ r) x) as [-> _].
      eapply find_child_name, E.
Qed.

(** After [rmtree] of an existing directory, [mkdir] succeeds and leaves an
    empty directory there. *)
Lemma rmtree_then_mkdir (full_path : path) (mode : Z) (c : string) (q : path)
    (fs entry : node) :
  lookup (c :: q) fs = Some entry -> is_dir entry = true ->
  exists fs2,
    mkdirs full_path mode (c :: q) (rmtree (c :: q) fs) = Ok fs2
    /\ lookup (c :: q) fs2 = Some (Dir (name entry) (mkdir_st_mode mode) []).
Proof.
  revert c fs. induction q as [|c2 q IH]; intros c fs Hl Hdir;
    cbn [lookup] in Hl;
    (destruct fs as [n m | n m children]; [discriminate|]);
    (destruct (find_child c children) as [x|] eqn:E; [|discriminate]).
  - injection Hl as <-. cbn [rmtree mkdir_parents].
    rewrite find_child_removed. eexists. split; [reflexivity|].
    cbn [lookup fresh_dirs].
    rewrite (find_child_app_missing c _ (Dir c (mkdir_st_mode mode) []))
      by (apply find_child_removed || reflexivity).
    now rewrite (find_child_name c children x E).
  - destruct (IH c2 x Hl Hdir) as (x2 & Hmk & Hlook).
    assert (Hname : name (rmtree (c2 :: q) x) = c).
    { destruct (rmtree_root (c2 :: q) x) as [-> _].
      eapply find_child_name, E. }
    assert (Hname2 : name x2 = c).
    { destruct (mkdir_parents_root _ _ _ _ _ _ Hmk) as [-> _]. exact Hname. }
    rewrite (rmtree_below c (c2 :: q) n m children) by discriminate.
    rewrite E, mkdir_parents_below.
    rewrite (find_replace_child c children x _ E Hname), Hmk.
    eexists. split; [reflexivity|]. cbn [lookup].
    rewrite (find_replace_child c _ _ x2
               (find_replace_child c children x _ E Hname) Hname2).
    exact Hlook.
Qed.

Lemma create_one_no_overwrite (q : path) (permissions : Z) (fs : node) :
  keeps_entries fs (snd (make_one q false permissions fs)).
Proof.
  unfold create_one, mkdir.
  destruct (c_int permissions); [|apply keeps_entries_refl].
  destruct (mkdirs q permissions q fs) as [fs'|e] eqn:E; cbn [snd].
  - eapply mkdir_parents_keeps, E.
  - apply keeps_entries_refl.
Qed.

(** [create_one] returns only for a mode that [os.mkdir] accepts. *)
Lemma create_one_c_int (q : path) (overwrite : bool) (permissions : Z)
    (fs : node) :
  fst (make_one q overwrite permissions fs) = Ok tt ->
  c_int permissions = true.
Proof.
  unfold create_one, mkdir.
  destruct (c_int permissions); [reflexivity|].
  destruct (if overwrite then lookup q fs else None)
    as [[n m | n m children]|]; [| destruct q |]; discriminate.
Qed.

Lemma create_one_makes (q : path) (overwrite : bool) (permissions : Z)
    (fs : node) :
  fst (make_one q overwrite permissions fs) = Ok tt ->
  dir_at q (snd (make_one q overwrite permissions fs)).
Proof.
  intros Hok. pose proof (create_one_c_int q overwrite permissions fs Hok)
    as Hint.
  revert Hok. unfold create_one, mkdir. rewrite Hint.
  destruct (if overwrite then lookup q fs else None)
    as [[n m | n m children]|] eqn:El.
  - discriminate.
  - destruct q as [|c q].
    + intros _. eexists. split; reflexivity.
    + destruct overwrite; [|discriminate].
      destruct (rmtree_then_mkdir (c :: q) permissions c q fs _ El eq_refl)
        as (fs2 & -> & Hl).
      intros _. eexists. split; [exact Hl | reflexivity].
  - destruct (mkdirs q permissions q fs) as [fs'|e] eqn:E; [|discriminate].
    intros _. eapply mkdir_parents_makes, E.
Qed.

Lemma create_one_keeps_dir (dn r : path) (overwrite : bool) (permissions : Z)
    (fs : node) :
  c_int permissions = true ->
  dir_at dn fs ->
  dir_at dn (snd (make_one (dn ++ r) overwrite permissions fs)).
Proof.
  intros Hint Hdn. unfold create_one, mkdir. rewrite Hint.
  destruct (if overwrite then lookup (dn ++ r) fs else None)
    as [[n m | n m children]|] eqn:El.
  - exact Hdn.
  - destruct overwrite; [|discriminate].
    destruct (dn ++ r) as [|c q] eqn:Eq.
    + apply app_eq_nil in Eq as [-> _]. eexists. split; reflexivity.
    + destruct (rmtree_then_mkdir (c :: q) permissions c q fs _ El eq_refl)
        as (fs2 & Hmk & Hl).
      rewrite Hmk. cbn [snd].
      destruct r as [|c' r].
      * rewrite app_nil_r in Eq. subst dn.
        eexists. split; [exact Hl | reflexivity].
      * apply (keeps_entries_dir_at (rmtree (c :: q) fs)).
        -- eapply mkdir_parents_keeps, Hmk.
        -- rewrite <- Eq. now apply rmtree_keeps_dir.
  - destruct (mkdirs (dn ++ r) permissions (dn ++ r) fs) as [fs'|e] eqn:E;
      cbn [snd]; [|exact Hdn].
    apply (keeps_entries_dir_at fs); [|exact Hdn].
    eapply mkdir_parents_keeps, E.
Qed.

Lemma create_folder_keeps_dir (subfolders_ : subfolders) (dn r : path)
    (overwrite : bool) (permissions : Z) (fs : node) :
  c_int permissions = true ->
  dir_at dn fs ->
  dir_at dn (snd (make (dn ++ r) overwrite permissions subfolders_ fs)).
Proof.
  intros Hint. revert r fs.
  induction subfolders_ as [|names|items IH] using subfolders_tree_ind;
    intros r fs Hdn; cbn [create_folder];
    pose proof (create_one_keeps_dir dn r overwrite permissions fs Hint Hdn)
      as H1;
    destruct (make_one (dn ++ r) overwrite permissions fs) as [[[]|e] fs1];
    cbn [snd] in *; try exact H1.
  - apply for_each_invariant; [|exact H1].
    intros nm _ fs' Hfs'. rewrite <- app_assoc.
    now apply create_one_keeps_dir.
  - apply for_each_invariant; [|exact H1].
    intros item Hitem fs' Hfs'. rewrite <- app_assoc.
    rewrite Forall_forall in IH. now apply (IH item Hitem).
Qed.

(** X23: without [overwrite], [create_folder] only adds to the tree:
    every entry that was there is still there afterwards, under the same
    path, with its kind and its [st_mode], whatever the subfolders and
    whether the call returns or raises. *)
Theorem create_folder_keeps_entries
    (directory_name : path) (permissions : Z) (subfolders_ : subfolders)
    (fs : node) :
  keeps_entries fs
    (snd (make directory_name false permissions subfolders_ fs)).
Proof.
  revert directory_name fs.
  induction subfolders_ as [|names|items IH] using subfolders_tree_ind;
    intros dn fs; cbn [create_folder];
    pose proof (create_one_no_overwrite dn permissions fs) as H1;
    destruct (make_one dn false permissions fs) as [[[]|e] fs1];
    cbn [snd] in *; try exact H1.
  - apply (for_each_invariant _ (keeps_entries fs)); [|exact H1].
    intros nm _ fs' Hfs'. eapply keeps_entries_trans; [exact Hfs'|].
    apply create_one_no_overwrite.
  - apply (for_each_invariant _ (keeps_entries fs)); [|exact H1].
    intros item Hitem fs' Hfs'. eapply keeps_entries_trans; [exact Hfs'|].
    rewrite Forall_forall in IH. apply (IH item Hitem).
Qed.

(** X24: when [create_folder] returns normally, the path is a directory;
    this holds with and without [overwrite], for every [subfolders]
    argument. *)
Theorem create_folder_makes_directory
    (directory_name : path) (overwrite : bool) (permissions : Z)
    (subfolders_ : subfolders) (fs : node) :
  fst (make directory_name overwrite permissions subfolders_ fs) = Ok tt ->
  dir_at directory_name
    (snd (make directory_name overwrite permissions subfolders_ fs)).
Proof.
  pose proof (create_one_makes directory_name overwrite permissions fs)
    as H1.
  pose proof (create_one_c_int directory_name overwrite permissions fs)
    as Hint.
  destruct subfolders_ as [|names|items]; cbn [create_folder];
    destruct (make_one directory_name overwrite permissions fs)
      as [[[]|e] fs1]; cbn [fst snd] in *; try discriminate;
    intros _; specialize (H1 eq_refl); specialize (Hint eq_refl).
  - exact H1.
  - apply for_each_invariant; [|exact H1].
    intros nm _ fs' Hfs'. now apply create_one_keeps_dir.
  - apply for_each_invariant; [|exact H1].
    intros item _ fs' Hfs'. now apply create_folder_keeps_dir.
Qed.

Lemma mkdir_parents_through_file (full_path : path) (mode : Z) (dn r : path)
    (fs : node) (n : string) (m : Z) :
  lookup dn fs = Some (File n m) -> r <> [] ->
  lookup (dn ++ r) fs = None
  /\ mkdirs full_path mode (dn ++ r) fs = Err (NotADirectoryErrorAt full_path).
Proof.
  intros Hl Hr. revert fs Hl. induction dn as [|c dn IH]; intros fs Hl.
  - cbn in Hl. injection Hl as ->.
    destruct r as [|c r]; [contradiction|]. split; reflexivity.
  - cbn [lookup app] in *. destruct fs as [n' m' | n' m' children];
      [discriminate|].
    rewrite mkdir_parents_below.
    destruct (find_child c children) as [x|]; [|discriminate].
    destruct (IH x Hl) as [-> ->]. split; reflexivity.
Qed.

(** X25: [create_folder] never replaces a plain file.  On a path that is
    a plain file it raises [FileSystemError] with [overwrite] and, without,
    [FileExistsError] (the [OverflowError] of [os.mkdir] when the
    permissions do not fit a C [int]); on a path that leads through a plain
    file it raises [NotADirectoryError] (or that [OverflowError]); the tree
    is unchanged in each case. *)
Theorem create_folder_on_plain_file
    (directory_name r : path) (overwrite : bool) (permissions : Z)
    (subfolders_ : subfolders) (fs : node) (n : string) (m : Z) :
  lookup directory_name fs = Some (File n m) ->
  make directory_name overwrite permissions subfolders_ fs
  = (Err (if overwrite then FileSystemError directory_name
          else if c_int permissions then FileExistsError directory_name
          else OverflowErrorAt directory_name), fs)
  /\ (r <> [] ->
      make (directory_name ++ r) overwrite permissions subfolders_ fs
      = (Err (if c_int permissions
              then NotADirectoryErrorAt (directory_name ++ r)
              else OverflowErrorAt (directory_name ++ r)), fs)).
Proof.
  intros Hl. split.
  - assert (H1 : make_one directory_name overwrite permissions fs
                 = (Err (if overwrite then FileSystemError directory_name
                         else if c_int permissions
                         then FileExistsError directory_name
                         else OverflowErrorAt directory_name), fs)).
    { unfold create_one, mkdir. destruct overwrite.
      - now rewrite Hl.
      - destruct (c_int permissions); [|reflexivity].
        now rewrite (mkdir_parents_existing mkdir_st_mode _ _ _ _ _ Hl). }
    destruct subfolders_; cbn [create_folder]; now rewrite H1.
  - intros Hr.
    destruct (mkdir_parents_through_file (directory_name ++ r) permissions
                directory_name r fs n m Hl Hr) as [Hnone Hmk].
    assert (H1 : make_one (directory_name ++ r) overwrite permissions fs
                 = (Err (if c_int permissions
                         then NotADirectoryErrorAt (directory_name ++ r)
                         else OverflowErrorAt (directory_name ++ r)), fs)).
    { unfold create_one, mkdir. rewrite Hnone, Hmk.
      now destruct overwrite, (c_int permissions). }
    destruct subfolders_; cbn [create_folder]; now rewrite H1.
Qed.


(** X27: without [overwrite], [create_folder] on an existing directory
    changes nothing: the directory keeps its entries and its [st_mode], the
    [permissions] argument is not applied; the call returns when the
    permissions fit a C [int] and raises the [OverflowError] of [os.mkdir]
    when they do not. *)
Theorem create_folder_existing_directory
    (directory_name : path) (permissions : Z) (fs entry : node) :
  lookup directory_name fs = Some entry -> is_dir entry = true ->
  make directory_name false permissions NoSubfolders fs
  = (if c_int permissions then Ok tt
     else Err (OverflowErrorAt directory_name), fs).
Proof.
  intros Hl Hdir. cbn [create_folder]. unfold create_one, mkdir.
  destruct (c_int permissions); [|reflexivity].
  now rewrite (mkdir_parents_existing mkdir_st_mode _ _ _ _ _ Hl), Hdir.
Qed.

End FolderCreation.

Section FileCreation.

Variable mkdir_st_mode : Z -> Z.
Variable open_st_mode : Z.

Local Notation "'mkdirs'" := (mkdir_parents mkdir_st_mode).
Local Notation "'touch'" := (add_file open_st_mode).

Lemma add_file_below (c : string) (p : path) (n : string) (m : Z)
    (children : list node) :
  p <> [] ->
  touch (c :: p) (Dir n m children)
  = match find_child c children with
    | Some x => Dir n m (replace_child c (touch p x) children)
    | None => Dir n m children
    end.
Proof. destruct p; [contradiction | reflexivity]. Qed.

Lemma add_file_root (p : path) (fs : node) : name (touch p fs) = name fs.
Proof.
  destruct p as [|c [|c' p]], fs as [n m | n m children]; cbn;
    try reflexivity; destruct (find_child c children); reflexivity.
Qed.

Lemma lookup_parent (c : string) (q : path) (fs entry : node) :
  lookup (c :: q) fs = Some entry -> dir_at (removelast (c :: q)) fs.
Proof.
  revert c fs. induction q as [|c2 q IH]; intros c fs Hl;
    cbn [lookup] in Hl;
    (destruct fs as [n m | n m children]; [discriminate|]);
    (destruct (find_child c children) as [x|] eqn:E; [|discriminate]).
  - eexists. split; reflexivity.
  - change (removelast (c :: c2 :: q)) with (c :: removelast (c2 :: q)).
    unfold dir_at. cbn [lookup]. rewrite E. exact (IH c2 x Hl).
Qed.

(** A new file in an existing directory appears under its path and leaves
    the other entries as they are. *)
Lemma add_file_new (c : string) (q : path) (fs : node) :
  dir_at (removelast (c :: q)) fs -> lookup (c :: q) fs = None ->
  lookup (c :: q) (touch (c :: q) fs)
  = Some (File (last (c :: q) ""%string) open_st_mode)
  /\ keeps_entries fs (touch (c :: q) fs).
Proof.
  revert c fs. induction q as [|c2 q IH]; intros c fs (entry & Hp & Hdir) Hl.
  - cbn in Hp. injection Hp as <-.
    destruct fs as [n m | n m children]; [discriminate|].
    cbn [lookup] in Hl.
    destruct (find_child c children) as [x|] eqn:E; [discriminate|].
    cbn [add_file lookup last]. split; [|apply append_child_keeps].
    now rewrite (find_child_app_missing c children (File c open_st_mode) E).
  - change (removelast (c :: c2 :: q)) with (c :: removelast (c2 :: q)) in Hp.
    cbn [lookup] in Hp, Hl.
    destruct fs as [n m | n m children]; [discriminate|].
    destruct (find_child c children) as [x|] eqn:E; [|discriminate].
    destruct (IH c2 x (ex_intro _ entry (conj Hp Hdir)) Hl) as [Hnew Hkeep].
    assert (Hname : name (touch (c2 :: q) x) = c).
    { rewrite add_file_root. eapply find_child_name, E. }
    rewrite add_file_below by discriminate. rewrite E. split.
    + cbn [lookup]. rewrite (find_replace_child c children x _ E Hname).
      exact Hnew.
    + now apply (replace_child_keeps n m children c x).
Qed.

(** X28: [create_file] only adds to the tree: every entry that was there
    is still there with its kind and its [st_mode], whether the call
    returns or raises; when it returns normally, the path is a plain
    file. *)
Theorem create_file_makes_file
    (file_path : path) (sub_folder : option path) (fs : node) :
  let full_path :=
    match sub_folder with
    | Some folder => folder ++ file_path
    | None => file_path
    end in
  let made := create_file mkdir_st_mode open_st_mode file_path sub_folder fs in
  keeps_entries fs (snd made)
  /\ (fst made = Ok tt ->
      exists entry,
        lookup full_path (snd made) = Some entry /\ is_file entry = true).
Proof.
  intros full_path made. subst made. unfold create_file.
  fold full_path. destruct full_path as [|c q] eqn:Efull.
  - cbn [lookup]. destruct fs as [n m | n m children]; cbn [fst snd].
    + split; [apply keeps_entries_refl|]. intros _.
      eexists. split; reflexivity.
    + split; [apply keeps_entries_refl | discriminate].
  - destruct (mkdirs (removelast (c :: q)) 511 (removelast (c :: q)) fs)
      as [fs1|e] eqn:Emk; cbn [fst snd].
    + pose proof (mkdir_parents_keeps _ _ _ _ _ _ Emk) as Hkeep.
      pose proof (mkdir_parents_makes _ _ _ _ _ _ Emk) as Hparent.
      destruct (lookup (c :: q) fs1) as [[n m | n m children]|] eqn:El;
        cbn [fst snd].
      * split; [exact Hkeep|]. intros _. eexists. split; [exact El|reflexivity].
      * split; [exact Hkeep | discriminate].
      * destruct (add_file_new c q fs1 Hparent El) as [Hnew Hadd].
        split; [eapply keeps_entries_trans; eassumption|].
        intros _. eexists. split; [exact Hnew | reflexivity].
    + split; [apply keeps_entries_refl | discriminate].
Qed.

(** X29: on a path that exists, [create_file] leaves the tree as it is:
    an existing plain file keeps its entry and its [st_mode] and the call
    returns; an existing directory makes it raise [IsADirectoryError]. *)
Theorem create_file_on_existing
    (file_path : path) (sub_folder : option path) (fs entry : node) :
  let full_path :=
    match sub_folder with
    | Some folder => folder ++ file_path
    | None => file_path
    end in
  lookup full_path fs = Some entry ->
  create_file mkdir_st_mode open_st_mode file_path sub_folder fs
  = (if is_dir entry then Err (IsADirectoryError full_path) else Ok tt, fs).
Proof.
  intros full_path Hl. unfold create_file. fold full_path.
  destruct full_path as [|c q] eqn:Efull.
  - rewrite Hl. destruct entry; reflexivity.
  - destruct (lookup_parent c q fs entry Hl) as (parent & Hp & Hdir).
    rewrite (mkdir_parents_existing mkdir_st_mode _ _ _ _ _ Hp), Hdir, Hl.
    destruct entry; reflexivity.
Qed.

End FileCreation.

(** Instances, with an operating system that gives a new directory the
    requested permission bits under the umask 0o022, and a new file the mode
    0o644. *)
Lemma create_folder_makes_directory_witness :
  dir_at ["n"%string; "x"%string]
    (snd (create_folder (fun m => Z.lor 16384 (Z.land m 493))
            ["n"%string; "x"%string] true 448
            (SubfolderDict [(["p"%string], SubfolderList [["s"%string]])])
            (Dir "root" 16877 [Dir "a" 16832 []; File "g" 33152]))).
Proof.
  apply (create_folder_makes_directory (fun m => Z.lor 16384 (Z.land m 493))
           ["n"%string; "x"%string] true 448
           (SubfolderDict [(["p"%string], SubfolderList [["s"%string]])])
           (Dir "root" 16877 [Dir "a" 16832 []; File "g" 33152])).
  reflexivity.
Defined.

Lemma create_folder_on_plain_file_witness :
  create_folder (fun m => Z.lor 16384 (Z.land m 493)) ["g"%string] true 448
    NoSubfolders (Dir "root" 16877 [Dir "a" 16832 []; File "g" 33152])
  = (Err (FileSystemError ["g"%string]),
     Dir "root" 16877 [Dir "a" 16832 []; File "g" 33152])
  /\ create_folder (fun m => Z.lor 16384 (Z.land m 493))
       (["g"%string] ++ ["x"%string]) true 448
       NoSubfolders (Dir "root" 16877 [Dir "a" 16832 []; File "g" 33152])
     = (Err (NotADirectoryErrorAt (["g"%string] ++ ["x"%string])),
        Dir "root" 16877 [Dir "a" 16832 []; File "g" 33152]).
Proof.
  destruct (create_folder_on_plain_file (fun m => Z.lor 16384 (Z.land m 493))
              ["g"%string] ["x"%string] true 448 NoSubfolders
              (Dir "root" 16877 [Dir "a" 16832 []; File "g" 33152])
              "g" 33152 eq_refl) as [Hat Hthrough].
  split; [exact Hat | apply Hthrough; discriminate].
Defined.


Lemma create_folder_existing_directory_witness :
  create_folder (fun m => Z.lor 16384 (Z.land m 493)) ["a"%string] false 448
    NoSubfolders
    (Dir "root" 16877 [Dir "a" 16877 [File "f" 33188]; File "g" 33152])
  = (Ok tt, Dir "root" 16877 [Dir "a" 16877 [File "f" 33188]; File "g" 33152]).
Proof.
  apply (create_folder_existing_directory
           (fun m => Z.lor 16384 (Z.land m 493)) ["a"%string] 448
           (Dir "root" 16877 [Dir "a" 16877 [File "f" 33188]; File "g" 33152])
           (Dir "a" 16877 [File "f" 33188]));
    reflexivity.
Defined.

Lemma create_file_makes_file_witness :
  let made :=
    create_file (fun m => Z.lor 16384 (Z.land m 493)) 33188
      ["x"%string; "y.txt"%string] (Some ["a"%string])
      (Dir "root" 16877 [Dir "a" 16877 [File "f" 33188]; File "g" 33152]) in
  keeps_entries
    (Dir "root" 16877 [Dir "a" 16877 [File "f" 33188]; File "g" 33152])
    (snd made)
  /\ exists entry,
      lookup (["a"%string] ++ ["x"%string; "y.txt"%string]) (snd made)
      = Some entry
      /\ is_file entry = true.
Proof.
  intros made.
  destruct (create_file_makes_file (fun m => Z.lor 16384 (Z.land m 493)) 33188
              ["x"%string; "y.txt"%string] (Some ["a"%string])
              (Dir "root" 16877 [Dir "a" 16877 [File "f" 33188]; File "g" 33152]))
    as [Hkeep Hfile].
  split; [exact Hkeep | apply Hfile; reflexivity].
Defined.

Lemma create_file_on_existing_witness :
  create_file (fun m => Z.lor 16384 (Z.land m 493)) 33188
    ["f"%string] (Some ["a"%string])
    (Dir "root" 16877 [Dir "a" 16877 [File "f" 33152]; File "g" 33152])
  = (Ok tt, Dir "root" 16877 [Dir "a" 16877 [File "f" 33152]; File "g" 33152]).
Proof.
  apply (create_file_on_existing (fun m => Z.lor 16384 (Z.land m 493)) 33188
           ["f"%string] (Some ["a"%string])
           (Dir "root" 16877 [Dir "a" 16877 [File "f" 33152]; File "g" 33152])
           (File "f" 33152)).
  reflexivity.
Defined.
